(** * besdbg: the BES2600 SDIO debug driver

    A shallow embedding of [drivers/net/wireless/st/cw1200/besdbg.c] and
    the properties of its request dispatcher ([besdbg_ioctl]), its
    register codec ([bes2600_sdio_reg_read], [bes2600_sdio_reg_write])
    and its detach handler ([besdbg_disconnect]).

    The driver talks to the kernel through calls whose results it cannot
    predict (the SDIO host, the GPIO line, the allocator, the user-copy
    primitives).  A driver function is therefore embedded as a finite
    interaction tree: a value of [prog R] either returns, or performs one
    kernel call and continues with whatever the kernel answers.  Running
    such a tree against an oracle for the kernel yields the return value
    and the trace of calls made, and all properties are statements about
    those traces, for every oracle. *)

From Stdlib Require Import String.
From Stdlib Require Import Strings.Byte.
From Stdlib Require Import ZArith List Lia Bool.
Import ListNotations.
Local Open Scope string_scope.
Local Open Scope list_scope.
Local Open Scope Z_scope.

(** * The driver *)

(** ** C data *)

(** Errno values of [include/uapi/asm-generic/errno-base.h]. *)
Definition EFAULT : Z := 14.
Definition ENOMEM : Z := 12.
Definition EINVAL : Z := 22.

(** Unsigned fixed-width integers are integers modulo their width. *)
Definition u32 (x : Z) : Z := x mod 2 ^ 32.
Definition u64 (x : Z) : Z := x mod 2 ^ 64.

(** [struct besdbg_data]: [__u32 reg; __u32 len; __u64 data]. *)
Record besdbg_data : Type := mk_besdbg_data {
  reg : Z;
  len : Z;
  data : Z
}.

(** What lands in the kernel's copy of the request: each field is cut
    to the width of its C type. *)
Definition as_besdbg_data (raw : besdbg_data) : besdbg_data :=
  {| reg := u32 (reg raw); len := u32 (len raw); data := u64 (data raw) |}.

(** [struct besdbg_priv]; the [cdev] is identified with its [major],
    and pointers are addresses (0 is NULL). *)
Record besdbg_priv : Type := mk_besdbg_priv {
  func : Z;
  wakeup_device_gpio : Z;
  major : Z
}.

(** The ioctl request numbers.  [_IOC] and the direction bits are those
    of [include/uapi/asm-generic/ioctl.h]; [sizeof(struct besdbg_data)]
    is 16. *)
Definition _IOC (dir type nr size : Z) : Z :=
  Z.lor (Z.lor (Z.lor (Z.shiftl dir 30) (Z.shiftl type 8)) (Z.shiftl nr 0))
        (Z.shiftl size 16).
Definition _IOC_NONE : Z := 0.
Definition _IOC_WRITE : Z := 1.
Definition _IOC_READ : Z := 2.
Definition sizeof_besdbg_data : Z := 16.

Definition BESDBG_MAGIC : Z := 0xEE.
Definition BESDBG_IOCTL_RESET : Z := _IOC _IOC_NONE BESDBG_MAGIC 0x10 0.
Definition BESDBG_IOCTL_REG_READ : Z :=
  _IOC _IOC_READ BESDBG_MAGIC 0x11 sizeof_besdbg_data.
Definition BESDBG_IOCTL_REG_WRITE : Z :=
  _IOC _IOC_WRITE BESDBG_MAGIC 0x12 sizeof_besdbg_data.
Definition BESDBG_IOCTL_MEM_READ : Z :=
  _IOC _IOC_READ BESDBG_MAGIC 0x13 sizeof_besdbg_data.
Definition BESDBG_IOCTL_MEM_WRITE : Z :=
  _IOC _IOC_WRITE BESDBG_MAGIC 0x14 sizeof_besdbg_data.

(** ** Kernel calls

    One constructor per kernel service the driver uses, indexed by the
    type of what the service hands back.  The SDIO calls all act on the
    one function [self->func] of the attachment.  A result of type [Z]
    for a call that returns [int] is its return value; for the user-copy
    calls it is the number of bytes not copied.

    Buffer contents travel with the calls: [sdio_readb] answers the byte
    read and the value stored in [*err_ret]; [sdio_memcpy_fromio] and
    [copy_from_user] answer the bytes they put in the destination;
    [sdio_memcpy_toio] and [copy_to_user] carry the bytes of their
    source.  [kmalloc] answers the address of the buffer (0 for NULL). *)
Inductive call : Type -> Type :=
| sdio_claim_host : call unit
| sdio_release_host : call unit
| sdio_readb (addr : Z) : call (byte * Z)
| sdio_writeb (b : byte) (addr : Z) : call Z
| sdio_memcpy_fromio (dst : Z) (addr : Z) (count : Z) : call (list byte * Z)
| sdio_memcpy_toio (addr : Z) (src : list byte) (count : Z) : call Z
| sdio_enable_func : call Z
| sdio_disable_func : call Z
| mmc_hw_reset : call Z
| gpiod_direction_output (desc : Z) (value : Z) : call Z
| msleep (msecs : Z) : call unit
| kmalloc (size : Z) : call Z
| kfree (objp : Z) : call unit
| copy_from_user_struct (from : Z) (n : Z) : call (besdbg_data * Z)
| copy_from_user (to : Z) (from : Z) (n : Z) : call (list byte * Z)
| copy_to_user (to : Z) (from : list byte) (n : Z) : call Z
| dev_warn (msg : string) (a : Z) : call unit
| dev_err (msg : string) : call unit
| cdev_del : call unit
| unregister_chrdev (maj : Z) (name : string) : call unit
| device_destroy (devt : Z) : call unit.

(** A driver function: a finite tree of kernel calls. *)
Inductive prog (R : Type) : Type :=
| Ret (r : R)
| Vis {X : Type} (c : call X) (k : X -> prog R).
Arguments Ret {R} r.
Arguments Vis {R X} c k.

Fixpoint bind {A B : Type} (p : prog A) (f : A -> prog B) : prog B :=
  match p with
  | Ret a => f a
  | Vis c k => Vis c (fun x => bind (k x) f)
  end.

Definition trigger {X : Type} (c : call X) : prog X := Vis c Ret.

Declare Scope prog_scope.
Delimit Scope prog_scope with prog.
Notation "x <- p ;; q" := (bind p (fun x => q))
  (at level 61, p at next level, right associativity) : prog_scope.
Notation "' pat <- p ;; q" := (bind p (fun x => let pat := x in q))
  (at level 61, pat pattern, p at next level, right associativity) : prog_scope.
Notation "p ;; q" := (bind p (fun _ => q))
  (at level 61, right associativity) : prog_scope.
Local Open Scope prog_scope.

(** ** Traces *)

(** One kernel call together with its answer. *)
Inductive event : Type :=
| Ev {X : Type} (c : call X) (x : X).

(** The kernel, as seen by one run: it answers each call knowing all
    that happened before. *)
Definition env : Type := forall X : Type, list event -> call X -> X.

(** [run e h p]: the result of [p] and the calls it made, when the
    kernel is [e] and [h] has already happened. *)
Fixpoint run {R : Type} (e : env) (h : list event) (p : prog R)
  : R * list event :=
  match p with
  | Ret r => (r, [])
  | Vis c k =>
      let x := e _ h c in
      let '(r, t) := run e (h ++ [Ev c x]) (k x) in
      (r, Ev c x :: t)
  end.

(** ** The register codec *)

(** The loop of [bes2600_sdio_reg_read], [while (count && !ret)]:
    [count] is the iterations to go, [reg] wraps as a [u32], and the
    bytes stored through [dst++] are collected in order. *)
Fixpoint reg_read_loop (count : nat) (reg : Z) (ret : Z) (dst : list byte)
  : prog (Z * list byte) :=
  match count with
  | O => Ret (ret, dst)
  | S count' =>
      if ret =? 0 then
        '(b, ret') <- trigger (sdio_readb reg) ;;
        reg_read_loop count' (u32 (reg + 1)) ret' (dst ++ [b])
      else Ret (ret, dst)
  end.

(** [bes2600_sdio_reg_read(self, reg, dst, count)]: the return value
    and the bytes written at [dst]. *)
Definition bes2600_sdio_reg_read (reg : Z) (dst : Z) (count : Z)
  : prog (Z * list byte) :=
  let ret := 0 in
  if (count <=? 0) || (dst =? 0) then Ret (- EINVAL, [])
  else reg_read_loop (Z.to_nat count) reg ret [].

(** The loop of [bes2600_sdio_reg_write]; [src] holds the bytes from
    the current position of the source pointer on. *)
Fixpoint reg_write_loop (count : nat) (reg : Z) (ret : Z) (src : list byte)
  : prog Z :=
  match count with
  | O => Ret ret
  | S count' =>
      if ret =? 0 then
        ret' <- trigger (sdio_writeb (hd x00 src) reg) ;;
        reg_write_loop count' (u32 (reg + 1)) ret' (tl src)
      else Ret ret
  end.

(** [bes2600_sdio_reg_write(self, reg, src, count)]; [src] is the
    address of the source and [bytes] what it holds. *)
Definition bes2600_sdio_reg_write (reg : Z) (src : Z) (bytes : list byte)
  (count : Z) : prog Z :=
  let ret := 0 in
  if (count <=? 0) || (src =? 0) then Ret (- EINVAL)
  else reg_write_loop (Z.to_nat count) reg ret bytes.

(** ** The request dispatcher *)

(** [besdbg_ioctl(fp, cmd, arg)], with [self = fp->private_data].  The
    request numbers are pairwise distinct, so the [switch] is a chain of
    tests; a [cmd] that matches no case falls out of the [switch] to the
    final [return -EINVAL]. *)
Definition besdbg_ioctl (self : besdbg_priv) (cmd : Z) (arg : Z) : prog Z :=
  let argp := arg in
  if cmd =? BESDBG_IOCTL_RESET then
    (* Disable the card *)
    trigger (gpiod_direction_output (wakeup_device_gpio self) 0) ;;
    trigger sdio_claim_host ;;
    ret <- trigger mmc_hw_reset ;;
    (if negb (ret =? 0)
     then trigger (dev_warn "unable to reset sdio: %ld" ret)
     else Ret tt) ;;
    trigger (gpiod_direction_output (wakeup_device_gpio self) 1) ;;
    trigger (msleep 10) ;;
    ret <- trigger sdio_enable_func ;;
    if negb (ret =? 0) then
      trigger sdio_release_host ;;
      Ret ret
    else
      trigger sdio_release_host ;;
      Ret 0
  else if cmd =? BESDBG_IOCTL_REG_READ then
    '(raw, uncopied) <- trigger (copy_from_user_struct argp sizeof_besdbg_data) ;;
    if negb (uncopied =? 0) then Ret (- EFAULT) else
    let r := as_besdbg_data raw in
    if (len r >? 32) || (len r =? 0) || (data r =? 0) then Ret (- EINVAL) else
    kdata <- trigger (kmalloc (len r)) ;;
    if kdata =? 0 then Ret (- ENOMEM) else
    trigger sdio_claim_host ;;
    '(ret, buf) <- bes2600_sdio_reg_read (reg r) kdata (len r) ;;
    trigger sdio_release_host ;;
    if negb (ret =? 0) then
      trigger (dev_err "read failed") ;;
      trigger (kfree kdata) ;;
      Ret ret
    else
    uncopied <- trigger (copy_to_user (data r) buf (len r)) ;;
    if negb (uncopied =? 0) then
      trigger (kfree kdata) ;;
      Ret (- EFAULT)
    else
    trigger (kfree kdata) ;;
    Ret 0
  else if cmd =? BESDBG_IOCTL_REG_WRITE then
    '(raw, uncopied) <- trigger (copy_from_user_struct argp sizeof_besdbg_data) ;;
    if negb (uncopied =? 0) then Ret (- EFAULT) else
    let r := as_besdbg_data raw in
    if (len r >? 64 * 1024) || (len r =? 0) || (data r =? 0)
    then Ret (- EINVAL) else
    kdata <- trigger (kmalloc (len r)) ;;
    if kdata =? 0 then Ret (- ENOMEM) else
    '(buf, uncopied) <- trigger (copy_from_user kdata (data r) (len r)) ;;
    if negb (uncopied =? 0) then Ret (- EFAULT) else
    trigger sdio_claim_host ;;
    ret <- bes2600_sdio_reg_write (reg r) kdata buf (len r) ;;
    trigger sdio_release_host ;;
    trigger (kfree kdata) ;;
    if negb (ret =? 0) then
      trigger (dev_err "read failed") ;;
      Ret ret
    else
    Ret 0
  else if cmd =? BESDBG_IOCTL_MEM_READ then
    '(raw, uncopied) <- trigger (copy_from_user_struct argp sizeof_besdbg_data) ;;
    if negb (uncopied =? 0) then Ret (- EFAULT) else
    let r := as_besdbg_data raw in
    if (len r >? 1024 * 64) || (len r =? 0) || (data r =? 0)
    then Ret (- EINVAL) else
    kdata <- trigger (kmalloc (len r)) ;;
    if kdata =? 0 then Ret (- ENOMEM) else
    trigger sdio_claim_host ;;
    '(buf, ret) <- trigger (sdio_memcpy_fromio kdata (reg r) (len r)) ;;
    trigger sdio_release_host ;;
    if negb (ret =? 0) then
      trigger (dev_err "read failed") ;;
      trigger (kfree kdata) ;;
      Ret ret
    else
    uncopied <- trigger (copy_to_user (data r) buf (len r)) ;;
    if negb (uncopied =? 0) then
      trigger (kfree kdata) ;;
      Ret (- EFAULT)
    else
    trigger (kfree kdata) ;;
    Ret 0
  else if cmd =? BESDBG_IOCTL_MEM_WRITE then
    '(raw, uncopied) <- trigger (copy_from_user_struct argp sizeof_besdbg_data) ;;
    if negb (uncopied =? 0) then Ret (- EFAULT) else
    let r := as_besdbg_data raw in
    if (len r >? 64 * 1024) || (len r =? 0) || (data r =? 0)
    then Ret (- EINVAL) else
    kdata <- trigger (kmalloc (len r)) ;;
    if kdata =? 0 then Ret (- ENOMEM) else
    '(buf, uncopied) <- trigger (copy_from_user kdata (data r) (len r)) ;;
    if negb (uncopied =? 0) then Ret (- EFAULT) else
    trigger sdio_claim_host ;;
    ret <- trigger (sdio_memcpy_toio (reg r) buf (len r)) ;;
    trigger sdio_release_host ;;
    trigger (kfree kdata) ;;
    if negb (ret =? 0) then
      trigger (dev_err "read failed") ;;
      Ret ret
    else
    Ret 0
  else Ret (- EINVAL).

(** ** Detach *)

(** [besdbg_disconnect(func)].  The driver data of [func] (what
    [sdio_get_drvdata] answers and [sdio_set_drvdata] replaces) is
    passed in and handed back; [None] is the NULL pointer. *)
Definition besdbg_disconnect (drvdata : option besdbg_priv)
  : prog (option besdbg_priv) :=
  match drvdata with
  | None => Ret drvdata
  | Some self =>
      trigger cdev_del ;;
      trigger (unregister_chrdev (major self) "besdbg") ;;
      trigger (device_destroy (major self)) ;;
      trigger sdio_claim_host ;;
      trigger sdio_disable_func ;;
      trigger sdio_release_host ;;
      let drvdata := @None besdbg_priv in
      trigger (gpiod_direction_output (wakeup_device_gpio self) 0) ;;
      Ret drvdata
  end.

(** * The vocabulary of the properties *)

(** ** Observations on traces *)

Definition claims {X : Type} (c : call X) : bool :=
  match c with sdio_claim_host => true | _ => false end.

Definition releases {X : Type} (c : call X) : bool :=
  match c with sdio_release_host => true | _ => false end.

Definition is_claim (ev : event) : bool :=
  match ev with Ev c _ => claims c end.

Definition is_release (ev : event) : bool :=
  match ev with Ev c _ => releases c end.

(** A single-byte transfer (CMD52). *)
Definition is_byte_xfer (ev : event) : bool :=
  match ev with
  | Ev c _ =>
      match c with sdio_readb _ | sdio_writeb _ _ => true | _ => false end
  end.

(** A block transfer (CMD53). *)
Definition is_block_xfer (ev : event) : bool :=
  match ev with
  | Ev c _ =>
      match c with
      | sdio_memcpy_fromio _ _ _ | sdio_memcpy_toio _ _ _ => true
      | _ => false
      end
  end.

(** A lifecycle action on the card or the wake line: hardware reset,
    function enable or disable, driving the wake-up GPIO, the settle
    delay. *)
Definition is_lifecycle (ev : event) : bool :=
  match ev with
  | Ev c _ =>
      match c with
      | mmc_hw_reset | sdio_enable_func | sdio_disable_func
      | gpiod_direction_output _ _ | msleep _ => true
      | _ => false
      end
  end.

(** Anything that goes over the SDIO bus. *)
Definition is_bus_op (ev : event) : bool :=
  match ev with
  | Ev c _ =>
      match c with
      | sdio_readb _ | sdio_writeb _ _
      | sdio_memcpy_fromio _ _ _ | sdio_memcpy_toio _ _ _
      | mmc_hw_reset | sdio_enable_func | sdio_disable_func => true
      | _ => false
      end
  end.

Definition is_kfree (ev : event) : bool :=
  match ev with
  | Ev c _ => match c with kfree _ => true | _ => false end
  end.

Definition is_copy_to_user (ev : event) : bool :=
  match ev with
  | Ev c _ => match c with copy_to_user _ _ _ => true | _ => false end
  end.

(** The error a single-byte transfer reported, if [ev] is one. *)
Definition xfer_err (ev : event) : option Z :=
  match ev with
  | Ev c x =>
      match c in call X return X -> option Z with
      | sdio_readb _ => fun x => Some (snd x)
      | sdio_writeb _ _ => fun x => Some x
      | _ => fun _ => None
      end x
  end.

(** The bus ownership guard as an automaton: [held] says whether the
    host is claimed.  One event is refused ([None]) when it claims a
    host that is held, releases one that is not, or uses the bus without
    holding it. *)
Definition guard_step (held : bool) (ev : event) : option bool :=
  if is_claim ev then
    if held then None else Some true
  else if is_release ev then
    if held then Some false else None
  else if is_bus_op ev then
    if held then Some held else None
  else Some held.

(** The state of the guard after a whole trace, if no event of the
    trace is refused. *)
Fixpoint guard_after (held : bool) (t : list event) : option bool :=
  match t with
  | [] => Some held
  | ev :: t' =>
      match guard_step held ev with
      | Some held' => guard_after held' t'
      | None => None
      end
  end.

(** The buffers a trace has obtained from [kmalloc] and not yet given
    back with [kfree], given those [live] before it. *)
Fixpoint live_buffers (live : list Z) (t : list event) : list Z :=
  match t with
  | [] => live
  | Ev c x :: t' =>
      match c in call X return X -> list Z with
      | kmalloc _ =>
          fun p => live_buffers (if p =? 0 then live else p :: live) t'
      | kfree p =>
          fun _ => live_buffers (filter (fun q => negb (q =? p)) live) t'
      | _ => fun _ => live_buffers live t'
      end x
  end.

(** ** A mock kernel

    A deterministic kernel for running the driver on concrete inputs:
    [rq] is the request record found at any user address; [bus a] is the
    byte at bus address [a] and the error a transfer at [a] reports;
    [user] is the answer to a payload [copy_from_user]; [life] holds the
    results of [mmc_hw_reset] and [sdio_enable_func]; [kmalloc] answers
    [kp]. Every other call succeeds. *)
Definition block_of (bus : Z -> byte * Z) (addr count : Z) : list byte :=
  map (fun i => fst (bus (addr + Z.of_nat i))) (seq 0 (Z.to_nat count)).

Definition mock_env (rq : besdbg_data) (bus : Z -> byte * Z)
  (user : list byte * Z) (life : Z * Z) (kp : Z) : env :=
  fun X _ c =>
    match c in call X return X with
    | sdio_claim_host => tt
    | sdio_release_host => tt
    | sdio_readb addr => bus addr
    | sdio_writeb _ addr => snd (bus addr)
    | sdio_memcpy_fromio _ addr count =>
        (block_of bus addr count, snd (bus addr))
    | sdio_memcpy_toio addr _ _ => snd (bus addr)
    | sdio_enable_func => snd life
    | sdio_disable_func => 0
    | mmc_hw_reset => fst life
    | gpiod_direction_output _ _ => 0
    | msleep _ => tt
    | kmalloc _ => kp
    | kfree _ => tt
    | copy_from_user_struct _ _ => (rq, 0)
    | copy_from_user _ _ _ => user
    | copy_to_user _ _ _ => 0
    | dev_warn _ _ => tt
    | dev_err _ => tt
    | cdev_del => tt
    | unregister_chrdev _ _ => tt
    | device_destroy _ => tt
    end.

(** The bus of the spec's scenario: bytes AA BB CC DD at 0x10..0x13,
    and a transfer at an address in [bad] fails with [-EIO] (5). *)
Definition demo_bus (bad : list Z) (addr : Z) : byte * Z :=
  (if addr =? 0x10 then xaa else if addr =? 0x11 then xbb
   else if addr =? 0x12 then xcc else if addr =? 0x13 then xdd else x00,
   if existsb (Z.eqb addr) bad then -5 else 0).

Definition demo_self : besdbg_priv :=
  {| func := 0x7000; wakeup_device_gpio := 0x7100; major := 240 |}.

(** ** Running programs *)

(** [all_runs p Q]: whatever the kernel answers, the result [r] of [p]
    and the trace [t] of its calls satisfy [Q r t]. *)
Fixpoint all_runs {R : Type} (p : prog R) (Q : R -> list event -> Prop)
  : Prop :=
  match p with
  | Ret r => Q r []
  | Vis c k => forall x, all_runs (k x) (fun r t => Q r (Ev c x :: t))
  end.

(** ** The reset operation *)

(** What a reset does while it holds the host, given what the kernel
    answered: [rst] to the hardware reset, [g1] to the GPIO write and
    [en] to the function enable. *)
Definition reset_section (self : besdbg_priv) (rst g1 en : Z) : list event :=
  [Ev mmc_hw_reset rst]
  ++ (if rst =? 0 then []
      else [Ev (dev_warn "unable to reset sdio: %ld" rst) tt])
  ++ [Ev (gpiod_direction_output (wakeup_device_gpio self) 1) g1;
      Ev (msleep 10) tt;
      Ev sdio_enable_func en].

(** The calls of one reset; [g0] is the answer to the first GPIO
    write. *)
Definition reset_trace (self : besdbg_priv) (g0 rst g1 en : Z) : list event :=
  [Ev (gpiod_direction_output (wakeup_device_gpio self) 0) g0;
   Ev sdio_claim_host tt]
  ++ reset_section self rst g1 en
  ++ [Ev sdio_release_host tt].

(** ** The register codec: what its loops do *)

(** A trace of single-byte transfers that stops at the first failure:
    starting with [ret] in the error variable, every event is a
    single-byte transfer made while the variable is still 0, and the
    answer is what the variable holds at the end. *)
Fixpoint xfer_result (ret : Z) (t : list event) : option Z :=
  match t with
  | [] => Some ret
  | ev :: t' =>
      if ret =? 0 then
        match xfer_err ev with
        | Some e => xfer_result e t'
        | None => None
        end
      else None
  end.

(** The reads of the loop of [bes2600_sdio_reg_read] from [reg] on,
    given the answers of the bus. *)
Fixpoint readb_trace (reg : Z) (answers : list (byte * Z)) : list event :=
  match answers with
  | [] => []
  | a :: answers' => Ev (sdio_readb reg) a :: readb_trace (u32 (reg + 1)) answers'
  end.

(** The same reads, by address: the [i]-th is at [reg + i], as a [u32]. *)
Definition reads_at (reg : Z) (answers : list (byte * Z)) : list event :=
  map (fun ia => Ev (sdio_readb (u32 (reg + Z.of_nat (fst ia)))) (snd ia))
      (combine (seq 0 (length answers)) answers).

Definition ok_answer (b : byte) : byte * Z := (b, 0).

(** How a run of the read loop over [n] bytes ends: after the reads
    [oks] that succeeded, either all [n] bytes are in and the result is
    0, or one more read failed with [e], which is the result. *)
Definition read_outcome (n : nat) (reg : Z) (dst : list byte)
  (res : Z * list byte) (t : list event) : Prop :=
  exists (oks : list byte) (fails : list (byte * Z)),
    t = readb_trace reg (map ok_answer oks ++ fails) /\
    snd res = dst ++ oks ++ map fst fails /\
    ((fails = [] /\ fst res = 0 /\ length oks = n) \/
     (exists b e, fails = [(b, e)] /\ e <> 0 /\ fst res = e /\
                  (length oks < n)%nat)).

(** ** Validation of requests *)

(** The four data-carrying requests. *)
Inductive kind : Type :=
| RegisterRead
| RegisterWrite
| BlockRead
| BlockWrite.

Definition cmd_of (k : kind) : Z :=
  match k with
  | RegisterRead => BESDBG_IOCTL_REG_READ
  | RegisterWrite => BESDBG_IOCTL_REG_WRITE
  | BlockRead => BESDBG_IOCTL_MEM_READ
  | BlockWrite => BESDBG_IOCTL_MEM_WRITE
  end.

(** The length bound of each kind, as the interface table states it:
    32 bytes for a register read, 64 KiB for the other three. *)
Definition max_length (k : kind) : Z :=
  match k with
  | RegisterRead => 32
  | RegisterWrite | BlockRead | BlockWrite => 64 * 1024
  end.

(** The first call of every data-carrying request: fetching the
    request record from the client. *)
Definition fetch_request (arg : Z) : call (besdbg_data * Z) :=
  copy_from_user_struct arg sizeof_besdbg_data.

(** ** Register reads *)

(** The calls of a register read that succeeds: the request [r] is
    fetched, a buffer of [len r] bytes is obtained at [kp], and under
    the claim of the host the bytes [bytes] are read one by one, the
    [i]-th at [reg r + i]; after the release they are copied to the
    client at [data r] and the buffer is freed. *)
Definition reg_read_ok_trace (arg : Z) (raw : besdbg_data) (kp : Z)
  (bytes : list byte) : list event :=
  let r := as_besdbg_data raw in
  [Ev (fetch_request arg) (raw, 0);
   Ev (kmalloc (len r)) kp;
   Ev sdio_claim_host tt]
  ++ reads_at (reg r) (map ok_answer bytes)
  ++ [Ev sdio_release_host tt;
      Ev (copy_to_user (data r) bytes (len r)) 0;
      Ev (kfree kp) tt].

(** ** Failure of a single-byte transfer *)

(** A transfer that failed. *)
Definition failed_with (ev : event) (err : Z) : Prop :=
  xfer_err ev = Some err /\ err <> 0.

(** ** Block transfers *)

(** The one block transfer of a block request [r]: at [reg r], of
    [len r] bytes, to or from the staging buffer at [kp]. *)
Definition block_xfer (k : kind) (r : besdbg_data) (kp : Z)
  (bytes : list byte) : event :=
  match k with
  | BlockWrite => Ev (sdio_memcpy_toio (reg r) bytes (len r)) 0
  | _ => Ev (sdio_memcpy_fromio kp (reg r) (len r)) (bytes, 0)
  end.

(** The calls of a block request that succeeds.  A write stages the
    payload before the host is claimed; a read copies the result to the
    client after the host is released. *)
Definition block_ok_trace (k : kind) (arg : Z) (raw : besdbg_data) (kp : Z)
  (bytes : list byte) : list event :=
  let r := as_besdbg_data raw in
  [Ev (fetch_request arg) (raw, 0);
   Ev (kmalloc (len r)) kp]
  ++ match k with
     | BlockWrite => [Ev (copy_from_user kp (data r) (len r)) (bytes, 0)]
     | _ => []
     end
  ++ [Ev sdio_claim_host tt;
      block_xfer k r kp bytes;
      Ev sdio_release_host tt]
  ++ match k with
     | BlockWrite => []
     | _ => [Ev (copy_to_user (data r) bytes (len r)) 0]
     end
  ++ [Ev (kfree kp) tt].

(** ** The preconditions of the register codec *)

(** The reading of §4.1 under which the codec leaves its preconditions
    to the caller: each codec function is its transfer loop over
    [count] bytes and nothing else. *)
Definition codec_trusts_caller : Prop :=
  (forall reg dst count,
      bes2600_sdio_reg_read reg dst count
      = reg_read_loop (Z.to_nat count) reg 0 []) /\
  (forall reg src bytes count,
      bes2600_sdio_reg_write reg src bytes count
      = reg_write_loop (Z.to_nat count) reg 0 bytes).

(** ** Detach: what is counted *)

Definition is_wake_deassert (ev : event) : bool :=
  match ev with
  | Ev c _ =>
      match c with
      | gpiod_direction_output _ value => value =? 0
      | _ => false
      end
  end.

Definition is_disable (ev : event) : bool :=
  match ev with
  | Ev c _ => match c with sdio_disable_func => true | _ => false end
  end.

(** Giving back what the attachment registered: the character device,
    its region, its device node; or freeing a buffer. *)
Definition is_free (ev : event) : bool :=
  match ev with
  | Ev c _ =>
      match c with
      | cdev_del | unregister_chrdev _ _ | device_destroy _ | kfree _ => true
      | _ => false
      end
  end.

Definition count (P : event -> bool) (t : list event) : nat :=
  length (filter P t).

(** The calls of a detach that finds the driver data [self]. *)
Definition teardown_trace (self : besdbg_priv) (dis gp : Z) : list event :=
  [Ev cdev_del tt;
   Ev (unregister_chrdev (major self) "besdbg") tt;
   Ev (device_destroy (major self)) tt;
   Ev sdio_claim_host tt;
   Ev sdio_disable_func dis;
   Ev sdio_release_host tt;
   Ev (gpiod_direction_output (wakeup_device_gpio self) 0) gp].

(** ** Requests in flight together

    Several [besdbg_ioctl] calls on the one device, interleaved call by
    call.  The host is the only thing they share.  Its exclusion is the
    kernel's and is taken as given: [sdio_claim_host] hands the host to
    one caller at a time and makes every other caller wait until
    [sdio_release_host]. *)

Record pool : Type := mk_pool {
  owner : option nat;              (* the request that holds the host *)
  threads : list (prog Z);         (* what is left to run of each request *)
  log : list (nat * event)         (* the calls made so far, and by whom *)
}.

Fixpoint set_nth {A : Type} (i : nat) (a : A) (l : list A) : list A :=
  match l, i with
  | [], _ => []
  | _ :: l', O => a :: l'
  | b :: l', S i' => b :: set_nth i' a l'
  end.

(** Who holds the host after request [i] has made call [c]. *)
Definition next_owner {X : Type} (o : option nat) (i : nat) (c : call X)
  : option nat :=
  if claims c then Some i else if releases c then None else o.

(** Request [i] is given the processor for one call.  It stays where it
    is when it has returned, or when it wants the host and the host is
    held. *)
Definition pool_step (e : env) (i : nat) (s : pool) : pool :=
  match nth_error (threads s) i with
  | Some (Vis c k) =>
      match claims c, owner s with
      | true, Some _ => s
      | _, _ =>
          let x := e _ (map snd (log s)) c in
          {| owner := next_owner (owner s) i c;
             threads := set_nth i (k x) (threads s);
             log := log s ++ [(i, Ev c x)] |}
      end
  | _ => s
  end.

(** A schedule names the request to run at each turn. *)
Definition run_pool (e : env) (sched : list nat) (s : pool) : pool :=
  fold_left (fun s i => pool_step e i s) sched s.

(** The requests [reqs], each a [cmd] and its [arg], about to start. *)
Definition pool_of (self : besdbg_priv) (reqs : list (Z * Z)) : pool :=
  {| owner := None;
     threads := map (fun ca => besdbg_ioctl self (fst ca) (snd ca)) reqs;
     log := [] |}.

(** The guard as an automaton over a log: one logged call is refused
    when it claims a held host, or releases or uses a host that another
    request (or nobody) holds. *)
Definition log_step (o : option nat) (i : nat) (ev : event)
  : option (option nat) :=
  if is_claim ev then
    match o with None => Some (Some i) | Some _ => None end
  else if is_release ev then
    match o with
    | Some j => if Nat.eqb j i then Some None else None
    | None => None
    end
  else if is_bus_op ev then
    match o with
    | Some j => if Nat.eqb j i then Some o else None
    | None => None
    end
  else Some o.

Fixpoint owner_after (o : option nat) (l : list (nat * event))
  : option (option nat) :=
  match l with
  | [] => Some o
  | (i, ev) :: l' =>
      match log_step o i ev with
      | Some o' => owner_after o' l'
      | None => None
      end
  end.

(** Request [i] holds the host. *)
Definition holds (o : option nat) (i : nat) : bool :=
  match o with Some j => Nat.eqb j i | None => false end.

(** What is left of a request keeps the guard discipline, from the
    guard state [held] on. *)
Definition disciplined (held : bool) (p : prog Z) : Prop :=
  all_runs p (fun _ t => guard_after held t = Some false).

Record pool_ok (s : pool) : Prop := {
  ok_threads :
    forall i p, nth_error (threads s) i = Some p ->
                disciplined (holds (owner s) i) p;
  ok_log : owner_after None (log s) = Some (owner s)
}.

(** A reset and a register read in flight together.  The read fetches
    its request and its buffer while the reset holds the host, then
    waits in [sdio_claim_host] until the reset has released it. *)
Definition demo_sched : list nat :=
  [0; 0; 1; 1; 1; 1; 0; 1; 0; 0; 1; 0; 0; 1; 1; 1; 1; 1; 1; 1; 1]%nat.

Definition demo_pool : pool :=
  run_pool (mock_env (mk_besdbg_data 0x10 2 0x5000) (demo_bus [])
                     ([], 0) (0, 0) 0x1000)
           demo_sched
           (pool_of demo_self
                    [(BESDBG_IOCTL_RESET, 0); (BESDBG_IOCTL_REG_READ, 0x4000)]).

(** ** Requests in flight together: who waits *)

(** Request [j] is waiting: it is at [sdio_claim_host] and the host is
    held, so a turn given to it moves nothing. *)
Definition waiting (s : pool) (j : nat) : bool :=
  match nth_error (threads s) j with
  | Some (Vis c _) =>
      claims c && match owner s with Some _ => true | None => false end
  | _ => false
  end.

(** The turns of a schedule that request [j] spends waiting. *)
Fixpoint waits (e : env) (sched : list nat) (s : pool) (j : nat) : nat :=
  match sched with
  | [] => 0%nat
  | i :: sched' =>
      ((if Nat.eqb i j && waiting s j then 1 else 0)
       + waits e sched' (pool_step e i s) j)%nat
  end.

(** Every other request is blocked while a reset holds the host: in a
    log, no call of another request lies between the claim of a reset
    and its release. *)
Definition others_stand_still : Prop :=
  forall e sched self reqs l1 i arg mid j ev l2,
    nth_error reqs i = Some (BESDBG_IOCTL_RESET, arg) ->
    log (run_pool e sched (pool_of self reqs))
    = l1 ++ (i, Ev sdio_claim_host tt) :: mid ++ (j, ev) :: l2 ->
    (forall ev', In (i, ev') mid -> is_release ev' = false) ->
    j = i.

(** A register read that fetches its request and allocates its buffer
    after the settle delay of a reset and before the reset releases the
    host, and is next scheduled when the host is free again. *)
Definition overlap_sched : list nat :=
  [0; 0; 0; 0; 0; 1; 1; 0; 0; 1; 1; 1; 1; 1; 1]%nat.

Definition overlap_env : env :=
  mock_env (mk_besdbg_data 0x10 2 0x5000) (demo_bus []) ([], 0) (0, 0) 0x1000.

Definition overlap_reqs : list (Z * Z) :=
  [(BESDBG_IOCTL_RESET, 0); (BESDBG_IOCTL_REG_READ, 0x4000)].

(** ** The staging buffer *)

(** The one way a request ends with a buffer it has not freed: the
    copy of the payload from the client was its last call, and it
    faulted. *)
Definition payload_fault (ret : Z) (t : list event) : Prop :=
  exists kp from n bytes uncopied,
    kp <> 0 /\ uncopied <> 0 /\ ret = - EFAULT /\
    live_buffers [] t = [kp] /\
    last t (Ev sdio_claim_host tt)
    = Ev (copy_from_user kp from n) (bytes, uncopied).

(** * Further vocabulary: the dispatcher, attach and detach *)

(** ** Register writes *)

(** The writes of the loop of [bes2600_sdio_reg_write] from [reg] on,
    given the bytes at the source and the answers of the bus. *)
Fixpoint writeb_trace (reg : Z) (src : list byte) (answers : list Z)
  : list event :=
  match answers with
  | [] => []
  | a :: answers' =>
      Ev (sdio_writeb (hd x00 src) reg) a
      :: writeb_trace (u32 (reg + 1)) (tl src) answers'
  end.

(** [n] successful writes, by address: the [i]-th sends the [i]-th
    byte of the source to [reg + i], as a [u32]. *)
Definition writes_at (reg : Z) (src : list byte) (n : nat) : list event :=
  map (fun i => Ev (sdio_writeb (nth i src x00) (u32 (reg + Z.of_nat i))) 0)
      (seq 0 n).

(** The calls of a register write that succeeds: the payload is staged
    in the buffer at [kp] before the host is claimed. *)
Definition reg_write_ok_trace (arg : Z) (raw : besdbg_data) (kp : Z)
  (bytes : list byte) : list event :=
  let r := as_besdbg_data raw in
  [Ev (fetch_request arg) (raw, 0);
   Ev (kmalloc (len r)) kp;
   Ev (copy_from_user kp (data r) (len r)) (bytes, 0);
   Ev sdio_claim_host tt]
  ++ writes_at (reg r) bytes (Z.to_nat (len r))
  ++ [Ev sdio_release_host tt;
      Ev (kfree kp) tt].

(** ** What a request does while it holds the host *)

(** A transfer of either sort. *)
Definition is_transfer (ev : event) : bool :=
  is_byte_xfer ev || is_block_xfer ev.

(** The calls a trace makes between a claim of the host and the
    release that follows it. *)
Fixpoint held_events (held : bool) (t : list event) : list event :=
  match t with
  | [] => []
  | ev :: t' =>
      if is_claim ev then held_events true t'
      else if is_release ev then held_events false t'
      else if held then ev :: held_events held t'
      else held_events held t'
  end.

(** The sizes asked of [kmalloc], in order. *)
Fixpoint allocs (t : list event) : list Z :=
  match t with
  | [] => []
  | Ev c _ :: t' =>
      match c with
      | kmalloc size => size :: allocs t'
      | _ => allocs t'
      end
  end.

(** A [copy_to_user] that copied everything. *)
Definition delivered (ev : event) : bool :=
  match ev with
  | Ev c x =>
      match c in call X return X -> bool with
      | copy_to_user _ _ _ => fun uncopied => uncopied =? 0
      | _ => fun _ => false
      end x
  end.

(** The error a transfer of either sort reported. *)
Definition bus_err (ev : event) : option Z :=
  match ev with
  | Ev c x =>
      match c in call X return X -> option Z with
      | sdio_readb _ => fun x => Some (snd x)
      | sdio_writeb _ _ => fun x => Some x
      | sdio_memcpy_fromio _ _ _ => fun x => Some (snd x)
      | sdio_memcpy_toio _ _ _ => fun x => Some x
      | _ => fun _ => None
      end x
  end.

(** ** Bounds on what one request asks for *)

(** The most transfers a request of each kind can make. *)
Definition max_transfers (k : kind) : Z :=
  match k with
  | RegisterRead | RegisterWrite => max_length k
  | BlockRead | BlockWrite => 1
  end.

(** ** Bus errors *)

(** The error of the first transfer of a trace that failed, and the
    calls that follow it. *)
Fixpoint after_failure (t : list event) : option (Z * list event) :=
  match t with
  | [] => None
  | ev :: t' =>
      match bus_err ev with
      | Some err => if err =? 0 then after_failure t' else Some (err, t')
      | None => after_failure t'
      end
  end.

(** What is known of a run of a codec function, for the walk. *)
Definition codec_failure (ret : Z) (t : list event) : Prop :=
  forallb is_byte_xfer t = true /\
  forall rest,
    (ret = 0 /\ after_failure (t ++ rest) = after_failure rest) \/
    (ret <> 0 /\ t = [] /\ after_failure (t ++ rest) = after_failure rest) \/
    (ret <> 0 /\ after_failure (t ++ rest) = Some (ret, rest)).

(** ** Requests in flight together: progress and composition *)

(** A request that has returned. *)
Definition returned (p : prog Z) : bool :=
  match p with Ret _ => true | Vis _ _ => false end.

(** The calls of request [i] in a log, in order. *)
Definition thread_log (i : nat) (l : list (nat * event)) : list event :=
  map snd (filter (fun je => Nat.eqb (fst je) i) l).

(** The holder of the host is one of the requests. *)
Definition owner_valid (s : pool) : Prop :=
  forall i, owner s = Some i -> (i < length (threads s))%nat.

(** Every request is where some sequential run of it would be: what is
    true of all its runs is true of its calls so far followed by any
    run of what is left of it. *)
Definition follows_program (self : besdbg_priv) (reqs : list (Z * Z))
  (s : pool) : Prop :=
  forall i cmd arg p (Q : Z -> list event -> Prop),
    nth_error reqs i = Some (cmd, arg) ->
    nth_error (threads s) i = Some p ->
    all_runs (besdbg_ioctl self cmd arg) Q ->
    all_runs p (fun r t => Q r (thread_log i (log s) ++ t)).

(** * Attaching and detaching *)

(** ** More kernel calls

    [besdbg_probe] and the module's init and exit functions use kernel
    services the dispatcher does not.  Their calls are those of the
    dispatcher ([kernel c]) and the ones below.  A call that answers a
    pointer answers its address; [alloc_chrdev_region] answers its
    return value and the device number it stored through its first
    argument. *)
Inductive acall : Type -> Type :=
| kernel {X : Type} (c : call X) : acall X
| dev_info (msg : string) : acall unit
| of_device_is_compatible (compat : string) : acall Z
| devm_kzalloc : acall Z
| devm_gpiod_get (con_id : string) : acall Z
| dev_err_probe (err : Z) (msg : string) : acall unit
| alloc_chrdev_region (baseminor count : Z) (name : string) : acall (Z * Z)
| cdev_init : acall unit
| cdev_add (dev : Z) (count : Z) : acall Z
| device_create (cls : Z) (devt : Z) (name : string) : acall Z
| class_create (name : string) : acall Z
| class_destroy (cls : Z) : acall unit
| sdio_register_driver : acall Z
| sdio_unregister_driver : acall unit.

Inductive aprog (R : Type) : Type :=
| ARet (r : R)
| AVis {X : Type} (c : acall X) (k : X -> aprog R).
Arguments ARet {R} r.
Arguments AVis {R X} c k.

Fixpoint abind {A B : Type} (p : aprog A) (f : A -> aprog B) : aprog B :=
  match p with
  | ARet a => f a
  | AVis c k => AVis c (fun x => abind (k x) f)
  end.

Definition atrigger {X : Type} (c : acall X) : aprog X := AVis c ARet.

(** A function of the dispatcher's vocabulary, as it is. *)
Fixpoint lift {R : Type} (p : prog R) : aprog R :=
  match p with
  | Ret r => ARet r
  | Vis c k => AVis (kernel c) (fun x => lift (k x))
  end.

Declare Scope aprog_scope.
Delimit Scope aprog_scope with aprog.
Notation "x <- p ;; q" := (abind p (fun x => q))
  (at level 61, p at next level, right associativity) : aprog_scope.
Notation "' pat <- p ;; q" := (abind p (fun x => let pat := x in q))
  (at level 61, pat pattern, p at next level, right associativity)
  : aprog_scope.
Notation "p ;; q" := (abind p (fun _ => q))
  (at level 61, right associativity) : aprog_scope.

Inductive aevent : Type :=
| AEv {X : Type} (c : acall X) (x : X).

Definition aenv : Type := forall X : Type, list aevent -> acall X -> X.

Fixpoint arun {R : Type} (e : aenv) (h : list aevent) (p : aprog R)
  : R * list aevent :=
  match p with
  | ARet r => (r, [])
  | AVis c k =>
      let x := e _ h c in
      let '(r, t) := arun e (h ++ [AEv c x]) (k x) in
      (r, AEv c x :: t)
  end.

Fixpoint all_aruns {R : Type} (p : aprog R) (Q : R -> list aevent -> Prop)
  : Prop :=
  match p with
  | ARet r => Q r []
  | AVis c k => forall x, all_aruns (k x) (fun r t => Q r (AEv c x :: t))
  end.

(** ** Pointers that carry an error

    [IS_ERR] and [PTR_ERR] of [include/linux/err.h], for the 64-bit
    pointers of the kernel: the top [MAX_ERRNO] addresses stand for the
    negated errno values. *)
Definition ENODEV : Z := 19.
Definition MAX_ERRNO : Z := 4095.

Definition IS_ERR (ptr : Z) : bool := 2 ^ 64 - MAX_ERRNO <=? u64 ptr.

Definition PTR_ERR (ptr : Z) : Z :=
  if u64 ptr <? 2 ^ 63 then u64 ptr else u64 ptr - 2 ^ 64.

(** ** The attachment *)

(** The two quirk bits [besdbg_probe] sets, of
    [include/linux/mmc/card.h]; their values are not the driver's. *)
Record quirk_bits : Type := mk_quirk_bits {
  MMC_QUIRK_LENIENT_FN0 : Z;
  MMC_QUIRK_BROKEN_BYTE_MODE_512 : Z
}.

(** What an attachment changes besides making calls: the quirks of the
    card ([func->card->quirks], an [unsigned int]) and the driver data
    of the function. *)
Record attach_state : Type := mk_attach_state {
  quirks : Z;
  drvdata_of : option besdbg_priv
}.

Local Open Scope aprog_scope.

(** [besdbg_probe(func, id)]: [num] is [func->num], [cls] the global
    [besdbg_class], [st] the state on entry; the result is the return
    value and the state on exit.  The [goto] labels are the three
    tails [err_sleep], [err_unreg_chrev_region], [err_cdev], each
    running into the next.  [dev_err_probe] logs and returns the error
    it is given. *)
Definition err_sleep (gpio : Z) (ret : Z) (st : attach_state)
  : aprog (Z * attach_state) :=
  atrigger (kernel (gpiod_direction_output gpio 0)) ;;
  ARet (ret, st).

Definition err_unreg_chrev_region (gpio maj : Z) (ret : Z)
  (st : attach_state) : aprog (Z * attach_state) :=
  atrigger (kernel (unregister_chrdev maj "besdbg")) ;;
  err_sleep gpio ret st.

Definition err_cdev (gpio maj : Z) (ret : Z) (st : attach_state)
  : aprog (Z * attach_state) :=
  atrigger (kernel cdev_del) ;;
  err_unreg_chrev_region gpio maj ret st.

Definition besdbg_probe (q : quirk_bits) (cls : Z) (func : Z) (num : Z)
  (st : attach_state) : aprog (Z * attach_state) :=
  if negb (num =? 0x01) then ARet (- ENODEV, st) else
  atrigger (dev_info "probe start") ;;
  compatible <- atrigger (of_device_is_compatible "bestechnic,bes2600") ;;
  if compatible =? 0 then
    atrigger (kernel (dev_err "OF node for function 1 is missing")) ;;
    ARet (- ENODEV, st)
  else
  self <- atrigger devm_kzalloc ;;
  if self =? 0 then ARet (- ENOMEM, st) else
  let st := {| quirks := u32 (Z.lor (quirks st) (MMC_QUIRK_LENIENT_FN0 q));
               drvdata_of := drvdata_of st |} in
  let st := {| quirks :=
                 u32 (Z.lor (quirks st) (MMC_QUIRK_BROKEN_BYTE_MODE_512 q));
               drvdata_of := drvdata_of st |} in
  gpio <- atrigger (devm_gpiod_get "device-wakeup") ;;
  if IS_ERR gpio then
    atrigger (dev_err_probe (PTR_ERR gpio) "can't get device-wakeup gpio") ;;
    ARet (PTR_ERR gpio, st)
  else
  (if negb (gpio =? 0) then
     atrigger (kernel (gpiod_direction_output gpio 1)) ;;
     atrigger (kernel (msleep 10))
   else ARet tt) ;;
  '(ret, maj) <- atrigger (alloc_chrdev_region 0 1 "besdbg") ;;
  if negb (ret =? 0) then
    atrigger (kernel (dev_err "can't allocate chrdev region")) ;;
    err_sleep gpio ret st
  else
  atrigger cdev_init ;;
  ret <- atrigger (cdev_add maj 1) ;;
  if negb (ret =? 0) then
    atrigger (kernel (dev_err "can't add cdev")) ;;
    err_unreg_chrev_region gpio maj ret st
  else
  sdev <- atrigger (device_create cls maj "besdbg") ;;
  if IS_ERR sdev then
    let ret := PTR_ERR sdev in
    err_cdev gpio maj ret st
  else
  let st := {| quirks := quirks st;
               drvdata_of :=
                 Some {| func := func; wakeup_device_gpio := gpio;
                         major := maj |} |} in
  atrigger (kernel sdio_claim_host) ;;
  ret <- atrigger (kernel sdio_enable_func) ;;
  (if negb (ret =? 0)
   then atrigger (kernel (dev_warn "can't enable func %d" ret))
   else ARet tt) ;;
  atrigger (kernel sdio_release_host) ;;
  atrigger (dev_info "probe success") ;;
  ARet (0, st).

(** [besdbg_disconnect], on the state of the attachment. *)
Definition disconnect (st : attach_state) : aprog attach_state :=
  d <- lift (besdbg_disconnect (drvdata_of st)) ;;
  ARet {| quirks := quirks st; drvdata_of := d |}.

(** ** The module *)

(** [besdbg_driver_init()]: the result is the return value and the new
    value of the global [besdbg_class]. *)
Definition besdbg_driver_init : aprog (Z * Z) :=
  besdbg_class <- atrigger (class_create "besdbg") ;;
  if IS_ERR besdbg_class then ARet (PTR_ERR besdbg_class, besdbg_class) else
  ret <- atrigger sdio_register_driver ;;
  if negb (ret =? 0) then
    atrigger (class_destroy besdbg_class) ;;
    ARet (ret, besdbg_class)
  else ARet (0, besdbg_class).

(** [besdbg_driver_exit()], given the global [besdbg_class]. *)
Definition besdbg_driver_exit (besdbg_class : Z) : aprog unit :=
  atrigger sdio_unregister_driver ;;
  atrigger (class_destroy besdbg_class).

Local Close Scope aprog_scope.

(** ** Observations on attachments *)

(** The dispatcher's calls among the calls of an attachment. *)
Definition kernel_event (ev : aevent) : option event :=
  match ev with
  | AEv c x =>
      match c in acall X return X -> option event with
      | kernel c' => fun x => Some (Ev c' x)
      | _ => fun _ => None
      end x
  end.

Fixpoint kernel_trace (t : list aevent) : list event :=
  match t with
  | [] => []
  | ev :: t' =>
      match kernel_event ev with
      | Some ev' => ev' :: kernel_trace t'
      | None => kernel_trace t'
      end
  end.

(** What an attachment or the module holds and has to give back: the
    wake line driven high, the region of device numbers, the character
    device, the device node, the class, the registration of the
    driver. *)
Inductive resource : Type :=
| Wake (gpio : Z)
| Region (dev : Z)
| Cdev
| Device (devt : Z)
| Class (cls : Z)
| Driver.

Definition resource_eqb (a b : resource) : bool :=
  match a, b with
  | Wake g, Wake g' => g =? g'
  | Region d, Region d' => d =? d'
  | Cdev, Cdev => true
  | Device d, Device d' => d =? d'
  | Class c, Class c' => c =? c'
  | Driver, Driver => true
  | _, _ => false
  end.

(** Giving back [r]: its first occurrence goes. *)
Fixpoint give_back (r : resource) (l : list resource) : list resource :=
  match l with
  | [] => []
  | r' :: l' => if resource_eqb r r' then l' else r' :: give_back r l'
  end.

(** The effect of one call on what is held.  A call that can fail
    takes hold, or gives back, only when it succeeds: a GPIO write that
    answers an error leaves the wake line as it was.

    [unregister_chrdev(major, name)] undoes [register_chrdev]: it looks
    for the range of 256 minors registered under [major], and so does
    not give back a region of one minor that [alloc_chrdev_region]
    handed out; that is the work of [unregister_chrdev_region].  The
    driver calls neither [register_chrdev] nor
    [unregister_chrdev_region], hence no call of its gives back a
    [Region]. *)
Definition account (held : list resource) (ev : aevent) : list resource :=
  match ev with
  | AEv c x =>
      match c in acall X return X -> list resource with
      | kernel c' =>
          match c' in call X return X -> list resource with
          | gpiod_direction_output gpio value =>
              fun ret =>
                if negb (ret =? 0) then held
                else if value =? 0 then give_back (Wake gpio) held
                else Wake gpio :: held
          | cdev_del => fun _ => give_back Cdev held
          | device_destroy devt => fun _ => give_back (Device devt) held
          | _ => fun _ => held
          end
      | alloc_chrdev_region _ _ _ =>
          fun x => if fst x =? 0 then Region (snd x) :: held else held
      | cdev_add _ _ => fun ret => if ret =? 0 then Cdev :: held else held
      | device_create _ devt _ =>
          fun sdev => if IS_ERR sdev then held else Device devt :: held
      | class_create _ =>
          fun cls => if IS_ERR cls then held else Class cls :: held
      | class_destroy cls => fun _ => give_back (Class cls) held
      | sdio_register_driver =>
          fun ret => if ret =? 0 then Driver :: held else held
      | sdio_unregister_driver => fun _ => give_back Driver held
      | _ => fun _ => held
      end x
  end.

(** What is held after a trace. *)
Definition outstanding (held : list resource) (t : list aevent)
  : list resource :=
  fold_left account t held.




(** ** A probe that fails *)

(** A mock kernel for attachments: the answers of the calls that can
    fail are given; the dispatcher's calls are answered by [mock_env]
    with [life] for the hardware reset and the function enable. *)
Definition mock_aenv (compatible self gpio : Z) (region : Z * Z)
  (add sdev : Z) (life : Z * Z) (cls reg : Z) : aenv :=
  fun X _ c =>
    match c in acall X return X with
    | kernel c' =>
        mock_env (mk_besdbg_data 0 0 0) (demo_bus []) ([], 0) life 0 _ [] c'
    | dev_info _ => tt
    | of_device_is_compatible _ => compatible
    | devm_kzalloc => self
    | devm_gpiod_get _ => gpio
    | dev_err_probe _ _ => tt
    | alloc_chrdev_region _ _ _ => region
    | cdev_init => tt
    | cdev_add _ _ => add
    | device_create _ _ _ => sdev
    | class_create _ => cls
    | class_destroy _ => tt
    | sdio_register_driver => reg
    | sdio_unregister_driver => tt
    end.

Definition demo_quirks : quirk_bits :=
  {| MMC_QUIRK_LENIENT_FN0 := 1; MMC_QUIRK_BROKEN_BYTE_MODE_512 := 256 |}.

Definition demo_state : attach_state :=
  {| quirks := 0; drvdata_of := None |}.

(** ** A probe that succeeds *)


(** ** Attach, then detach *)


(** * Properties *)

(** ** Running programs *)

Lemma run_bind {A B : Type} (e : env) (p : prog A) (f : A -> prog B) :
  forall h,
    run e h (bind p f) =
    let '(a, t1) := run e h p in
    let '(b, t2) := run e (h ++ t1) (f a) in
    (b, t1 ++ t2).
Proof.
  induction p as [a | X c k IH]; intros h; cbn [bind run].
  - rewrite app_nil_r. now destruct (run e h (f a)).
  - rewrite IH.
    destruct (run e (h ++ [Ev c (e X h c)]) (k (e X h c))) as [a t1].
    rewrite <- app_assoc. cbn [app].
    now destruct (run e (h ++ Ev c (e X h c) :: t1) (f a)).
Qed.

Lemma all_runs_run {R : Type} (p : prog R) :
  forall (Q : R -> list event -> Prop),
    all_runs p Q ->
    forall (e : env) (h : list event),
      Q (fst (run e h p)) (snd (run e h p)).
Proof.
  induction p as [r | X c k IH]; intros Q HQ e h; cbn [run all_runs] in *.
  - exact HQ.
  - specialize (IH _ _ (HQ (e X h c)) e (h ++ [Ev c (e X h c)])).
    now destruct (run e (h ++ [Ev c (e X h c)]) (k (e X h c))).
Qed.

Lemma all_runs_weaken {R : Type} (p : prog R) :
  forall (Q Q' : R -> list event -> Prop),
    (forall r t, Q r t -> Q' r t) -> all_runs p Q -> all_runs p Q'.
Proof.
  induction p as [r | X c k IH]; intros Q Q' HQ Hp; cbn [all_runs] in *.
  - now apply HQ.
  - intros x. eapply IH; [ | apply Hp ]. cbn beta. intros r t. apply HQ.
Qed.

Lemma all_runs_bind {A B : Type} (p : prog A) (f : A -> prog B) :
  forall (Q : B -> list event -> Prop),
    all_runs p (fun a t1 => all_runs (f a) (fun b t2 => Q b (t1 ++ t2))) ->
    all_runs (bind p f) Q.
Proof.
  induction p as [a | X c k IH]; intros Q Hp; cbn [all_runs bind] in *.
  - exact Hp.
  - intros x. apply IH. exact (Hp x).
Qed.

(** ** The reset operation *)

Lemma reset_all_runs (self : besdbg_priv) (arg : Z) :
  all_runs (besdbg_ioctl self BESDBG_IOCTL_RESET arg)
    (fun ret t => exists g0 rst g1 en,
         ret = en /\ t = reset_trace self g0 rst g1 en).
Proof.
  unfold besdbg_ioctl. rewrite Z.eqb_refl. cbn [bind trigger all_runs].
  intros g0 [] rst. unfold reset_trace, reset_section.
  destruct (rst =? 0) eqn:Hr; cbn [negb bind all_runs];
    [ intros g1 [] en | intros [] g1 [] en ];
    destruct (en =? 0) eqn:He; cbn [negb all_runs]; intros [];
    exists g0, rst, g1, en; rewrite Hr; split; try reflexivity.
  all: apply Z.eqb_eq in He; now subst.
Qed.

(** C4. Every reset request makes its calls in one fixed order: drive
    the wake line low, reset the card, drive the wake line high, sleep
    the settle delay, enable the function.  A failed hardware reset
    ([rst <> 0]) only adds a warning and the sequence goes on; the call
    returns what the enable answered, so an enable failure is the
    result of the call, and nothing follows the enable but the release
    of the host: the wake line stays high. *)
Theorem reset_sequence (e : env) (h : list event) (self : besdbg_priv)
  (arg : Z) :
  exists g0 rst g1 en,
    run e h (besdbg_ioctl self BESDBG_IOCTL_RESET arg)
    = (en, reset_trace self g0 rst g1 en).
Proof.
  destruct (all_runs_run _ _ (reset_all_runs self arg) e h)
    as (g0 & rst & g1 & en & Hret & Ht).
  exists g0, rst, g1, en.
  destruct (run e h (besdbg_ioctl self BESDBG_IOCTL_RESET arg)).
  cbn [fst snd] in *. now subst.
Qed.

(** ** The register codec: what its loops do *)

Lemma reg_read_loop_fail (n : nat) (reg ret : Z) (dst : list byte) :
  ret <> 0 -> reg_read_loop n reg ret dst = Ret (ret, dst).
Proof.
  intros H. destruct n; cbn [reg_read_loop]; [ reflexivity | ].
  apply Z.eqb_neq in H. now rewrite H.
Qed.

Lemma reg_write_loop_fail (n : nat) (reg ret : Z) (src : list byte) :
  ret <> 0 -> reg_write_loop n reg ret src = Ret ret.
Proof.
  intros H. destruct n; cbn [reg_write_loop]; [ reflexivity | ].
  apply Z.eqb_neq in H. now rewrite H.
Qed.

Lemma reg_read_loop_runs (n : nat) :
  forall (reg : Z) (dst : list byte),
    all_runs (reg_read_loop n reg 0 dst) (read_outcome n reg dst).
Proof.
  induction n as [| n IH]; intros reg dst.
  - cbn. exists [], []. cbn. rewrite app_nil_r. repeat split. left. auto.
  - cbn [reg_read_loop Z.eqb bind trigger all_runs]. intros [b e].
    destruct (Z.eq_dec e 0) as [-> | He].
    + eapply all_runs_weaken; [ | apply IH ].
      intros res t (oks & fails & Ht & Hd & Hc).
      exists (b :: oks), fails. cbn [map app readb_trace length].
      rewrite Ht, Hd, <- app_assoc. repeat split.
      destruct Hc as [(-> & H0 & Hn) | (b' & e' & -> & He' & Hr & Hn)].
      * left. auto.
      * right. exists b', e'. repeat split; auto. lia.
    + rewrite reg_read_loop_fail by exact He. cbn [all_runs].
      exists [], [(b, e)]. cbn. repeat split.
      right. exists b, e. repeat split; auto. lia.
Qed.

Lemma reg_read_loop_xfer (n : nat) :
  forall (reg ret : Z) (dst : list byte),
    all_runs (reg_read_loop n reg ret dst)
             (fun res t => xfer_result ret t = Some (fst res)).
Proof.
  induction n as [| n IH]; intros reg ret dst; [ reflexivity | ].
  cbn [reg_read_loop]. destruct (ret =? 0) eqn:Hret; [ | reflexivity ].
  cbn [bind trigger all_runs]. intros [b e].
  eapply all_runs_weaken; [ | apply IH ].
  intros res t Ht. cbn [xfer_result xfer_err snd]. now rewrite Hret.
Qed.

Lemma reg_write_loop_xfer (n : nat) :
  forall (reg ret : Z) (src : list byte),
    all_runs (reg_write_loop n reg ret src)
             (fun res t => xfer_result ret t = Some res).
Proof.
  induction n as [| n IH]; intros reg ret src; [ reflexivity | ].
  cbn [reg_write_loop]. destruct (ret =? 0) eqn:Hret; [ | reflexivity ].
  cbn [bind trigger all_runs]. intros e.
  eapply all_runs_weaken; [ | apply IH ].
  intros res t Ht. cbn [xfer_result xfer_err]. now rewrite Hret.
Qed.

(** In such a trace a failed transfer is the last event, and its error
    is the result. *)
Lemma xfer_result_stops (t1 : list event) :
  forall (ret res : Z) (ev : event) (t2 : list event) (err : Z),
    xfer_result ret (t1 ++ ev :: t2) = Some res ->
    xfer_err ev = Some err -> err <> 0 ->
    t2 = [] /\ res = err.
Proof.
  induction t1 as [| ev1 t1 IH]; intros ret res ev t2 err Hx Hev Herr;
    cbn [app xfer_result] in Hx; destruct (ret =? 0); try discriminate.
  - rewrite Hev in Hx. destruct t2 as [| ev2 t2]; cbn [xfer_result] in Hx.
    + split; congruence.
    + apply Z.eqb_neq in Herr. rewrite Herr in Hx. discriminate.
  - destruct (xfer_err ev1); [ | discriminate ]. eapply IH; eassumption.
Qed.

Lemma xfer_result_byte_xfers (t : list event) :
  forall ret res : Z,
    xfer_result ret t = Some res -> forallb is_byte_xfer t = true.
Proof.
  induction t as [| ev t IH]; intros ret res Hx; [ reflexivity | ].
  cbn [xfer_result] in Hx. destruct (ret =? 0); [ | discriminate ].
  destruct (xfer_err ev) as [e |] eqn:Hev; [ | discriminate ].
  cbn [forallb]. rewrite (IH _ _ Hx), andb_true_r.
  destruct ev as [X c x]; destruct c; cbn in Hev |- *; congruence.
Qed.

Lemma readb_trace_reads_at (answers : list (byte * Z)) :
  forall reg : Z,
    reg = u32 reg -> readb_trace reg answers = reads_at reg answers.
Proof.
  unfold reads_at.
  induction answers as [| a answers IH]; intros reg Hreg; [ reflexivity | ].
  cbn [readb_trace length seq combine map fst snd].
  rewrite Z.add_0_r, <- Hreg. f_equal.
  rewrite IH by (unfold u32; now rewrite Z.mod_mod by lia).
  rewrite <- seq_shift.
  clear. generalize (seq 0 (length answers)) as l.
  induction answers as [| a answers IH]; intros [| i l]; cbn; try reflexivity.
  f_equal; [ | apply IH ].
  do 2 f_equal. unfold u32. rewrite Zplus_mod_idemp_l. f_equal. lia.
Qed.

Lemma guard_after_byte_xfers (t rest : list event) :
  forallb is_byte_xfer t = true ->
  guard_after true (t ++ rest) = guard_after true rest.
Proof.
  induction t as [| ev t IH]; intros Ht; [ reflexivity | ].
  cbn [forallb] in Ht. apply andb_prop in Ht as [Hev Ht].
  cbn [app guard_after]. 
  destruct ev as [X c x]; destruct c; cbn in Hev |- *;
    try discriminate; exact (IH Ht).
Qed.

Lemma reg_read_byte_xfers (reg dst count : Z) :
  all_runs (bes2600_sdio_reg_read reg dst count)
           (fun _ t => forallb is_byte_xfer t = true).
Proof.
  unfold bes2600_sdio_reg_read.
  destruct (_ || _); [ reflexivity | ].
  eapply all_runs_weaken; [ | apply reg_read_loop_xfer ].
  intros res t. apply xfer_result_byte_xfers.
Qed.

Lemma reg_write_byte_xfers (reg src : Z) (bytes : list byte) (count : Z) :
  all_runs (bes2600_sdio_reg_write reg src bytes count)
           (fun _ t => forallb is_byte_xfer t = true).
Proof.
  unfold bes2600_sdio_reg_write.
  destruct (_ || _); [ reflexivity | ].
  eapply all_runs_weaken; [ | apply reg_write_loop_xfer ].
  intros res t. apply xfer_result_byte_xfers.
Qed.

(** ** The bus ownership guard *)

Ltac guard_leaf :=
  cbn [app guard_after guard_step is_claim is_release is_bus_op claims
         releases];
  rewrite ?guard_after_byte_xfers by assumption;
  reflexivity.

Lemma ioctl_guard (self : besdbg_priv) (cmd arg : Z) :
  all_runs (besdbg_ioctl self cmd arg)
           (fun _ t => guard_after false t = Some false).
Proof.
  unfold besdbg_ioctl.
  destruct (cmd =? BESDBG_IOCTL_RESET).
  { cbn [bind trigger all_runs]. intros g0 [] rst.
    destruct (rst =? 0); cbn [negb bind all_runs];
      [ intros g1 [] en | intros [] g1 [] en ];
      destruct (en =? 0); cbn [negb all_runs]; intros []; reflexivity. }
  destruct (cmd =? BESDBG_IOCTL_REG_READ).
  { cbn [bind trigger all_runs]. intros [raw u].
    destruct (u =? 0); cbn [negb all_runs]; [ | reflexivity ].
    destruct (_ || _); cbn [bind all_runs]; [ reflexivity | ].
    intros kp. destruct (kp =? 0); cbn [bind all_runs]; [ reflexivity | ].
    intros []. apply all_runs_bind.
    eapply all_runs_weaken; [ | apply reg_read_byte_xfers ].
    intros [ret buf] tc Htc. cbn [all_runs]. intros [].
    destruct (ret =? 0); cbn [negb all_runs].
    - intros u'. destruct (u' =? 0); cbn [negb all_runs]; intros [];
        guard_leaf.
    - intros [] []. guard_leaf. }
  destruct (cmd =? BESDBG_IOCTL_REG_WRITE).
  { cbn [bind trigger all_runs]. intros [raw u].
    destruct (u =? 0); cbn [negb all_runs]; [ | reflexivity ].
    destruct (_ || _); cbn [bind all_runs]; [ reflexivity | ].
    intros kp. destruct (kp =? 0); cbn [bind all_runs]; [ reflexivity | ].
    intros [buf u']. destruct (u' =? 0); cbn [negb bind all_runs];
      [ | reflexivity ].
    intros []. apply all_runs_bind.
    eapply all_runs_weaken; [ | apply reg_write_byte_xfers ].
    intros ret tc Htc. cbn [all_runs]. intros [] [].
    destruct (ret =? 0); cbn [negb all_runs]; [ | intros [] ]; guard_leaf. }
  destruct (cmd =? BESDBG_IOCTL_MEM_READ).
  { cbn [bind trigger all_runs]. intros [raw u].
    destruct (u =? 0); cbn [negb all_runs]; [ | reflexivity ].
    destruct (_ || _); cbn [bind all_runs]; [ reflexivity | ].
    intros kp. destruct (kp =? 0); cbn [bind all_runs]; [ reflexivity | ].
    intros [] [buf ret] [].
    destruct (ret =? 0); cbn [negb all_runs].
    - intros u'. destruct (u' =? 0); cbn [negb all_runs]; intros [];
        reflexivity.
    - intros [] []. reflexivity. }
  destruct (cmd =? BESDBG_IOCTL_MEM_WRITE).
  { cbn [bind trigger all_runs]. intros [raw u].
    destruct (u =? 0); cbn [negb all_runs]; [ | reflexivity ].
    destruct (_ || _); cbn [bind all_runs]; [ reflexivity | ].
    intros kp. destruct (kp =? 0); cbn [bind all_runs]; [ reflexivity | ].
    intros [buf u']. destruct (u' =? 0); cbn [negb bind all_runs];
      [ | reflexivity ].
    intros [] ret [] [].
    destruct (ret =? 0); cbn [negb all_runs]; [ | intros [] ]; reflexivity. }
  reflexivity.
Qed.

(** C1. Whatever the request (reset, register read or write, block
    read or write, or an unknown one) and whatever the kernel answers,
    the calls of [besdbg_ioctl] keep the guard discipline: the host is
    never claimed while held, never released while free, the bus is
    only used while the host is held, and the host is free again when
    the call returns. *)
Theorem ioctl_releases_guard (e : env) (h : list event)
  (self : besdbg_priv) (cmd arg : Z) :
  guard_after false (snd (run e h (besdbg_ioctl self cmd arg))) = Some false.
Proof.
  exact (all_runs_run _ _ (ioctl_guard self cmd arg) e h).
Qed.

(** ** Validation of requests *)

Ltac pick_case :=
  unfold besdbg_ioctl, cmd_of;
  repeat match goal with
    | |- context [?a =? ?a] => rewrite (Z.eqb_refl a)
    | |- context [?a =? ?b] =>
        lazymatch a with
        | BESDBG_IOCTL_REG_READ => idtac
        | BESDBG_IOCTL_REG_WRITE => idtac
        | BESDBG_IOCTL_MEM_READ => idtac
        | BESDBG_IOCTL_MEM_WRITE => idtac
        end;
        change (a =? b) with false
    end;
  cbv iota.

(** C2. When the request record has been fetched ([copy_from_user]
    left nothing uncopied) and its length is 0, or exceeds the bound of
    its kind, or its payload pointer is NULL, the call returns
    [-EINVAL] and the fetch of the record is the only call it made: no
    claim of the host, no transfer, no lifecycle action, no
    allocation. *)
Theorem invalid_request_rejected (e : env) (h : list event)
  (self : besdbg_priv) (k : kind) (arg : Z) (raw : besdbg_data) :
  e _ h (fetch_request arg) = (raw, 0) ->
  len (as_besdbg_data raw) = 0 \/
  len (as_besdbg_data raw) > max_length k \/
  data (as_besdbg_data raw) = 0 ->
  run e h (besdbg_ioctl self (cmd_of k) arg)
  = (- EINVAL, [Ev (fetch_request arg) (raw, 0)]) /\
  existsb (fun ev => is_claim ev || is_byte_xfer ev || is_block_xfer ev
                     || is_lifecycle ev)
          (snd (run e h (besdbg_ioctl self (cmd_of k) arg)))
  = false.
Proof.
  unfold fetch_request. intros Hfetch Hbad.
  assert (Htest :
    (len (as_besdbg_data raw) >? max_length k)
    || (len (as_besdbg_data raw) =? 0)
    || (data (as_besdbg_data raw) =? 0) = true).
  { destruct Hbad as [H | [H | H]].
    - apply Z.eqb_eq in H. rewrite H. now rewrite orb_true_r.
    - apply Z.gt_lt, Z.gtb_lt in H. now rewrite H.
    - apply Z.eqb_eq in H. rewrite H. now rewrite orb_true_r. }
  destruct k; pick_case; cbn [bind trigger run]; rewrite Hfetch;
    cbn [Z.eqb negb max_length] in *;
    change (1024 * 64) with (64 * 1024); rewrite Htest; split; reflexivity.
Qed.

(** The spec's scenario: a block write of 70000 bytes at 0x1000. *)
Lemma invalid_request_rejected_witness :
  run (mock_env (mk_besdbg_data 0x1000 70000 0x5000) (demo_bus [])
                ([], 0) (0, 0) 0x1000)
      [] (besdbg_ioctl demo_self (cmd_of BlockWrite) 0x4000)
  = (- EINVAL,
     [Ev (fetch_request 0x4000) (mk_besdbg_data 0x1000 70000 0x5000, 0)]).
Proof.
  refine (proj1 (invalid_request_rejected
                   (mock_env (mk_besdbg_data 0x1000 70000 0x5000)
                             (demo_bus []) ([], 0) (0, 0) 0x1000)
                   [] demo_self BlockWrite 0x4000
                   (mk_besdbg_data 0x1000 70000 0x5000) _ _)).
  - reflexivity.
  - right. left. vm_compute. reflexivity.
Defined.

(** ** The staging buffer *)

Lemma live_buffers_byte_xfers (t rest : list event) :
  forall live,
    forallb is_byte_xfer t = true ->
    live_buffers live (t ++ rest) = live_buffers live rest.
Proof.
  induction t as [| ev t IH]; intros live Ht; [ reflexivity | ].
  cbn [forallb] in Ht. apply andb_prop in Ht as [Hev Ht].
  cbn [app live_buffers].
  destruct ev as [X c x]; destruct c; cbn in Hev; try discriminate;
    exact (IH _ Ht).
Qed.

Ltac buffers_leaf :=
  left; cbn [app live_buffers];
  rewrite ?live_buffers_byte_xfers by assumption;
  cbn [live_buffers];
  repeat match goal with
    | H : (?p =? 0) = false |- _ => rewrite H
    end;
  cbn [filter]; rewrite ?Z.eqb_refl; reflexivity.

(** Every request frees the buffer it allocated before it returns,
    except on that path: the read requests always do, on success, on
    a bus error and on a faulting copy to the client; the write
    requests do once the payload is staged. *)
Lemma ioctl_buffers (self : besdbg_priv) (cmd arg : Z) :
  all_runs (besdbg_ioctl self cmd arg)
           (fun ret t => live_buffers [] t = [] \/ payload_fault ret t).
Proof.
  unfold besdbg_ioctl.
  destruct (cmd =? BESDBG_IOCTL_RESET).
  { cbn [bind trigger all_runs]. intros g0 [] rst.
    destruct (rst =? 0); cbn [negb bind all_runs];
      [ intros g1 [] en | intros [] g1 [] en ];
      destruct (en =? 0); cbn [negb all_runs]; intros []; now left. }
  destruct (cmd =? BESDBG_IOCTL_REG_READ).
  { cbn [bind trigger all_runs]. intros [raw u].
    destruct (u =? 0); cbn [negb all_runs]; [ | now left ].
    destruct (_ || _); cbn [bind all_runs]; [ now left | ].
    intros kp. destruct (kp =? 0) eqn:Hkp; cbn [bind all_runs].
    { left. cbn [live_buffers]. now rewrite Hkp. }
    intros []. apply all_runs_bind.
    eapply all_runs_weaken; [ | apply reg_read_byte_xfers ].
    intros [ret buf] tc Htc. cbn [all_runs]. intros [].
    destruct (ret =? 0); cbn [negb all_runs].
    - intros u'. destruct (u' =? 0); cbn [negb all_runs]; intros [];
        buffers_leaf.
    - intros [] []. buffers_leaf. }
  destruct (cmd =? BESDBG_IOCTL_REG_WRITE).
  { cbn [bind trigger all_runs]. intros [raw u].
    destruct (u =? 0); cbn [negb all_runs]; [ | now left ].
    destruct (_ || _); cbn [bind all_runs]; [ now left | ].
    intros kp. destruct (kp =? 0) eqn:Hkp; cbn [bind all_runs].
    { left. cbn [live_buffers]. now rewrite Hkp. }
    intros [buf u']. destruct (u' =? 0) eqn:Hu'; cbn [negb bind all_runs].
    - intros []. apply all_runs_bind.
      eapply all_runs_weaken; [ | apply reg_write_byte_xfers ].
      intros ret tc Htc. cbn [all_runs]. intros [] [].
      destruct (ret =? 0); cbn [negb all_runs]; [ | intros [] ];
        buffers_leaf.
    - right. exists kp, (data (as_besdbg_data raw)),
        (len (as_besdbg_data raw)), buf, u'.
      apply Z.eqb_neq in Hkp, Hu'. repeat split; auto.
      cbn [live_buffers]. apply Z.eqb_neq in Hkp. now rewrite Hkp. }
  destruct (cmd =? BESDBG_IOCTL_MEM_READ).
  { cbn [bind trigger all_runs]. intros [raw u].
    destruct (u =? 0); cbn [negb all_runs]; [ | now left ].
    destruct (_ || _); cbn [bind all_runs]; [ now left | ].
    intros kp. destruct (kp =? 0) eqn:Hkp; cbn [bind all_runs].
    { left. cbn [live_buffers]. now rewrite Hkp. }
    intros [] [buf ret] [].
    destruct (ret =? 0); cbn [negb all_runs].
    - intros u'. destruct (u' =? 0); cbn [negb all_runs]; intros [];
        buffers_leaf.
    - intros [] []. buffers_leaf. }
  destruct (cmd =? BESDBG_IOCTL_MEM_WRITE).
  { cbn [bind trigger all_runs]. intros [raw u].
    destruct (u =? 0); cbn [negb all_runs]; [ | now left ].
    destruct (_ || _); cbn [bind all_runs]; [ now left | ].
    intros kp. destruct (kp =? 0) eqn:Hkp; cbn [bind all_runs].
    { left. cbn [live_buffers]. now rewrite Hkp. }
    intros [buf u']. destruct (u' =? 0) eqn:Hu'; cbn [negb bind all_runs].
    - intros [] ret [] [].
      destruct (ret =? 0); cbn [negb all_runs]; [ | intros [] ];
        buffers_leaf.
    - right. exists kp, (data (as_besdbg_data raw)),
        (len (as_besdbg_data raw)), buf, u'.
      apply Z.eqb_neq in Hkp, Hu'. repeat split; auto.
      cbn [live_buffers]. apply Z.eqb_neq in Hkp. now rewrite Hkp. }
  now left.
Qed.

(** C3 fails in the code, on the two write requests: when the copy of
    the payload from the client faults, the call returns [-EFAULT]
    straight after the [kmalloc], and the buffer it obtained is never
    handed to [kfree].  Here: a register write and a block write of 4
    bytes whose payload cannot be read. *)
Theorem payload_fault_leaks_buffer :
  let e := mock_env (mk_besdbg_data 0x10 4 0x5000) (demo_bus [])
                    ([], 4) (0, 0) 0x1000 in
  let t := [Ev (fetch_request 0x4000) (mk_besdbg_data 0x10 4 0x5000, 0);
            Ev (kmalloc 4) 0x1000;
            Ev (copy_from_user 0x1000 0x5000 4) ([], 4)] in
  run e [] (besdbg_ioctl demo_self (cmd_of RegisterWrite) 0x4000)
    = (- EFAULT, t) /\
  run e [] (besdbg_ioctl demo_self (cmd_of BlockWrite) 0x4000)
    = (- EFAULT, t) /\
  existsb is_kfree t = false /\
  live_buffers [] t = [0x1000].
Proof. vm_compute. repeat split. Qed.

(** ** Register reads *)

Lemma as_besdbg_data_reg (raw : besdbg_data) :
  reg (as_besdbg_data raw) = u32 (reg (as_besdbg_data raw)).
Proof. cbn. unfold u32. now rewrite Z.mod_mod by lia. Qed.

Lemma reg_read_ok_runs (self : besdbg_priv) (arg : Z) :
  all_runs (besdbg_ioctl self BESDBG_IOCTL_REG_READ arg)
    (fun ret t =>
       ret = 0 ->
       exists raw kp bytes,
         0 < len (as_besdbg_data raw) <= 32 /\
         Z.of_nat (length bytes) = len (as_besdbg_data raw) /\
         t = reg_read_ok_trace arg raw kp bytes).
Proof.
  pick_case. cbn [bind trigger all_runs]. intros [raw u].
  destruct (u =? 0) eqn:Hu; cbn [negb all_runs]; [ | discriminate ].
  apply Z.eqb_eq in Hu. subst u.
  destruct (_ || _) eqn:Hvalid; cbn [bind all_runs]; [ discriminate | ].
  apply orb_false_elim in Hvalid as [Hvalid _].
  apply orb_false_elim in Hvalid as [Hmax Hzero].
  assert (Hlen : 0 < len (as_besdbg_data raw) <= 32).
  { apply Z.eqb_neq in Hzero. rewrite Z.gtb_ltb in Hmax.
    apply Z.ltb_ge in Hmax.
    assert (0 <= len (as_besdbg_data raw))
      by (cbn; unfold u32; apply Z.mod_pos_bound; lia).
    lia. }
  intros kp. destruct (kp =? 0) eqn:Hkp; cbn [bind all_runs];
    [ discriminate | ].
  intros []. apply all_runs_bind. unfold bes2600_sdio_reg_read.
  replace (len (as_besdbg_data raw) <=? 0) with false
    by (symmetry; apply Z.leb_gt; lia).
  rewrite Hkp. cbn [orb].
  eapply all_runs_weaken; [ | apply reg_read_loop_runs ].
  intros [ret buf] tc (oks & fails & Htc & Hbuf & Hend).
  cbn [fst snd app] in *. cbn [all_runs]. intros [].
  destruct (ret =? 0) eqn:Hret; cbn [negb all_runs].
  - apply Z.eqb_eq in Hret. subst ret.
    destruct Hend as [(-> & _ & Hn) | (b & err & _ & Herr & Hret & _)];
      [ | congruence ].
    cbn [map] in Hbuf. rewrite !app_nil_r in *. subst buf tc.
    intros u'. destruct (u' =? 0) eqn:Hu'; cbn [negb all_runs]; intros [];
      [ | discriminate ].
    apply Z.eqb_eq in Hu'. subst u'. intros _.
    exists raw, kp, oks. repeat split; try lia.
    unfold reg_read_ok_trace, fetch_request. cbn [app].
    now rewrite readb_trace_reads_at by apply as_besdbg_data_reg.
  - intros [] [] ->. discriminate.
Qed.

(** C5. A register read that succeeds (returns 0) for a request of
    length [N] has [0 < N <= 32] and makes exactly [N] single-byte
    reads, one after the other, the [i]-th at address [reg + i] (an
    unsigned 32-bit sum); the bytes it hands to the client are the bytes
    those reads answered, in that order. *)
Theorem register_read_success (e : env) (h : list event)
  (self : besdbg_priv) (arg : Z) (t : list event) :
  run e h (besdbg_ioctl self (cmd_of RegisterRead) arg) = (0, t) ->
  exists raw kp bytes,
    0 < len (as_besdbg_data raw) <= 32 /\
    Z.of_nat (length bytes) = len (as_besdbg_data raw) /\
    t = reg_read_ok_trace arg raw kp bytes.
Proof.
  intros Hrun.
  pose proof (all_runs_run _ _ (reg_read_ok_runs self arg) e h) as H.
  cbn [cmd_of] in Hrun. rewrite Hrun in H. now apply H.
Qed.

(** The spec's scenario: four registers at 0x10 holding AA BB CC DD. *)
Lemma register_read_success_witness :
  exists raw kp bytes,
    0 < len (as_besdbg_data raw) <= 32 /\
    Z.of_nat (length bytes) = len (as_besdbg_data raw) /\
    [Ev (fetch_request 0x4000) (mk_besdbg_data 0x10 4 0x5000, 0);
     Ev (kmalloc 4) 0x1000;
     Ev sdio_claim_host tt;
     Ev (sdio_readb 0x10) (xaa, 0);
     Ev (sdio_readb 0x11) (xbb, 0);
     Ev (sdio_readb 0x12) (xcc, 0);
     Ev (sdio_readb 0x13) (xdd, 0);
     Ev sdio_release_host tt;
     Ev (copy_to_user 0x5000 [xaa; xbb; xcc; xdd] 4) 0;
     Ev (kfree 0x1000) tt]
    = reg_read_ok_trace 0x4000 raw kp bytes.
Proof.
  apply (register_read_success
           (mock_env (mk_besdbg_data 0x10 4 0x5000) (demo_bus [])
                     ([], 0) (0, 0) 0x1000)
           [] demo_self 0x4000).
  vm_compute. reflexivity.
Defined.

Example register_read_wraps :
  snd (run (mock_env (mk_besdbg_data 0xFFFFFFFF 2 0x5000) (demo_bus [])
                     ([], 0) (0, 0) 0x1000)
           [] (besdbg_ioctl demo_self (cmd_of RegisterRead) 0x4000))
  = [Ev (fetch_request 0x4000) (mk_besdbg_data 0xFFFFFFFF 2 0x5000, 0);
     Ev (kmalloc 2) 0x1000;
     Ev sdio_claim_host tt;
     Ev (sdio_readb 0xFFFFFFFF) (x00, 0);
     Ev (sdio_readb 0) (x00, 0);
     Ev sdio_release_host tt;
     Ev (copy_to_user 0x5000 [x00; x00] 2) 0;
     Ev (kfree 0x1000) tt].
Proof. vm_compute. reflexivity. Qed.

(** ** Failure of a single-byte transfer *)

Lemma xfer_err_byte_xfer (ev : event) (err : Z) :
  xfer_err ev = Some err -> is_byte_xfer ev = true.
Proof. destruct ev as [X c x]; destruct c; cbn; congruence. Qed.

(** An event of a kind [P] that occurs in [a ++ tc ++ b], where [a] and
    [b] hold no event of that kind, occurs in [tc]. *)
Lemma split_middle (P : event -> bool) (a : list event) :
  forall (tc b t1 : list event) (ev : event) (t2 : list event),
    existsb P a = false -> existsb P b = false -> P ev = true ->
    a ++ tc ++ b = t1 ++ ev :: t2 ->
    exists t1' t2', t1 = a ++ t1' /\ t2 = t2' ++ b /\ tc = t1' ++ ev :: t2'.
Proof.
  induction a as [| x a IHa]; intros tc b t1 ev t2 Ha Hb Hev Heq.
  - clear Ha. cbn [app] in *. revert t1 Heq.
    induction tc as [| y tc IHtc]; intros t1 Heq; cbn [app] in Heq.
    + exfalso. subst b. rewrite existsb_app in Hb. cbn [existsb] in Hb.
      rewrite Hev, orb_true_r in Hb. discriminate.
    + destruct t1 as [| z t1]; cbn [app] in Heq; injection Heq as -> Heq.
      * exists [], tc. auto.
      * destruct (IHtc _ Heq) as (t1' & t2' & -> & -> & ->).
        exists (z :: t1'), t2'. auto.
  - cbn [existsb] in Ha. apply orb_false_elim in Ha as [Hx Ha].
    destruct t1 as [| z t1]; cbn [app] in Heq; injection Heq as -> Heq.
    + congruence.
    + destruct (IHa _ _ _ _ _ Ha Hb Hev Heq) as (t1' & t2' & -> & -> & ->).
      exists t1', t2'. auto.
Qed.

Lemma reg_read_stops (reg dst count : Z) :
  all_runs (bes2600_sdio_reg_read reg dst count)
    (fun res t =>
       forall t1 ev t2 err,
         t = t1 ++ ev :: t2 -> failed_with ev err ->
         t2 = [] /\ fst res = err).
Proof.
  unfold bes2600_sdio_reg_read. destruct (_ || _).
  - cbn [all_runs]. intros [| ? ?]; discriminate.
  - eapply all_runs_weaken; [ | apply reg_read_loop_xfer ].
    intros res t Hx t1 ev t2 err -> [Hev Herr].
    eapply xfer_result_stops; eassumption.
Qed.

Lemma reg_write_stops (reg src : Z) (bytes : list byte) (count : Z) :
  all_runs (bes2600_sdio_reg_write reg src bytes count)
    (fun res t =>
       forall t1 ev t2 err,
         t = t1 ++ ev :: t2 -> failed_with ev err ->
         t2 = [] /\ res = err).
Proof.
  unfold bes2600_sdio_reg_write. destruct (_ || _).
  - cbn [all_runs]. intros [| ? ?]; discriminate.
  - eapply all_runs_weaken; [ | apply reg_write_loop_xfer ].
    intros res t Hx t1 ev t2 err -> [Hev Herr].
    eapply xfer_result_stops; eassumption.
Qed.

Lemma all_runs_conj {R : Type} (p : prog R) :
  forall (Q1 Q2 : R -> list event -> Prop),
    all_runs p Q1 -> all_runs p Q2 ->
    all_runs p (fun r t => Q1 r t /\ Q2 r t).
Proof.
  induction p as [r | X c k IH]; intros Q1 Q2 H1 H2; cbn [all_runs] in *.
  - now split.
  - intros x. apply (IH x _ _ (H1 x) (H2 x)).
Qed.

Lemma no_failed_transfer (t t1 : list event) (ev : event) (t2 : list event)
  (err : Z) :
  existsb is_byte_xfer t = false ->
  t = t1 ++ ev :: t2 -> failed_with ev err -> False.
Proof.
  intros Ht -> [Hev _]. apply xfer_err_byte_xfer in Hev.
  rewrite existsb_app in Ht. cbn [existsb] in Ht.
  rewrite Hev, orb_true_r in Ht. discriminate.
Qed.

Lemma byte_xfers_no_copy_back (t : list event) :
  forallb is_byte_xfer t = true -> existsb is_copy_to_user t = false.
Proof.
  induction t as [| ev t IH]; [ reflexivity | ].
  cbn [forallb existsb]. intros H. apply andb_prop in H as [Hev Ht].
  rewrite (IH Ht), orb_false_r.
  destruct ev as [X c x]; destruct c; cbn in Hev |- *; congruence.
Qed.

Lemma reg_read_failure_runs (self : besdbg_priv) (arg : Z) :
  all_runs (besdbg_ioctl self BESDBG_IOCTL_REG_READ arg)
    (fun ret t =>
       forall t1 ev t2 err,
         t = t1 ++ ev :: t2 -> failed_with ev err ->
         ret = err /\
         existsb is_byte_xfer t2 = false /\
         existsb is_copy_to_user t = false).
Proof.
  pick_case. cbn [bind trigger all_runs]. intros [raw u].
  destruct (u =? 0); cbn [negb all_runs];
    [ | intros; exfalso; eapply no_failed_transfer; eauto; reflexivity ].
  destruct (_ || _); cbn [bind all_runs];
    [ intros; exfalso; eapply no_failed_transfer; eauto; reflexivity | ].
  intros kp. destruct (kp =? 0); cbn [bind all_runs];
    [ intros; exfalso; eapply no_failed_transfer; eauto; reflexivity | ].
  intros []. apply all_runs_bind.
  eapply all_runs_weaken;
    [ | apply all_runs_conj;
        [ apply reg_read_stops | apply reg_read_byte_xfers ] ].
  cbn beta. intros [rc buf] tc [Hstops Hbytes]. cbn [fst] in Hstops.
  cbn [all_runs]. intros [].
  destruct (rc =? 0) eqn:Hrc; cbn [negb all_runs].
  - apply Z.eqb_eq in Hrc. subst rc.
    intros u'. destruct (u' =? 0); cbn [negb all_runs]; intros [];
      intros t1 ev t2 err Heq Hfail; exfalso.
    all: match type of Heq with
         | ?e1 :: ?e2 :: ?e3 :: ?c ++ ?b = ?rhs =>
             change (([e1; e2; e3] ++ c ++ b) = rhs) in Heq
         end.
    all: apply (split_middle is_byte_xfer) in Heq;
      [ | reflexivity | reflexivity
        | exact (xfer_err_byte_xfer _ _ (proj1 Hfail)) ].
    all: destruct Heq as (t1' & t2' & _ & _ & Htc).
    all: destruct (Hstops _ _ _ _ Htc Hfail) as [_ H0].
    all: destruct Hfail as [_ Herr]; congruence.
  - intros [] [] t1 ev t2 err Heq Hfail.
    match type of Heq with
    | ?e1 :: ?e2 :: ?e3 :: ?c ++ ?b = ?rhs =>
        change (([e1; e2; e3] ++ c ++ b) = rhs) in Heq
    end.
    apply (split_middle is_byte_xfer) in Heq;
      [ | reflexivity | reflexivity
        | exact (xfer_err_byte_xfer _ _ (proj1 Hfail)) ].
    destruct Heq as (t1' & t2' & -> & -> & Htc).
    destruct (Hstops _ _ _ _ Htc Hfail) as [-> ->].
    repeat split.
    cbn [existsb is_copy_to_user orb]. rewrite existsb_app.
    rewrite (byte_xfers_no_copy_back _ Hbytes). reflexivity.
Qed.

Lemma run_result {R : Type} (e : env) (h : list event) (p : prog R)
  (Q : R -> list event -> Prop) (r : R) (t : list event) :
  all_runs p Q -> run e h p = (r, t) -> Q r t.
Proof.
  intros Hp Hrun. pose proof (all_runs_run _ _ Hp e h) as H.
  now rewrite Hrun in H.
Qed.

(** C6. Let [ev] be a single-byte transfer that failed with [err].
    Wherever [ev] occurs in a run of the register read codec or of the
    register write codec, it is the last call of the run, and [err] is
    the result.  Wherever it occurs in a register read request, the
    request returns [err], no transfer follows it, and no call of the
    request copies anything to the client. *)
Theorem failed_transfer_stops (e : env) (ev : event) (err : Z) :
  failed_with ev err ->
  (forall h reg dst count res t1 t2,
      run e h (bes2600_sdio_reg_read reg dst count) = (res, t1 ++ ev :: t2) ->
      t2 = [] /\ fst res = err) /\
  (forall h reg src bytes count res t1 t2,
      run e h (bes2600_sdio_reg_write reg src bytes count)
      = (res, t1 ++ ev :: t2) ->
      t2 = [] /\ res = err) /\
  (forall h self arg ret t1 t2,
      run e h (besdbg_ioctl self (cmd_of RegisterRead) arg)
      = (ret, t1 ++ ev :: t2) ->
      ret = err /\
      existsb is_byte_xfer t2 = false /\
      existsb is_copy_to_user (t1 ++ ev :: t2) = false).
Proof.
  intros Hfail. split; [ | split ].
  - intros h r dst count res t1 t2 Hrun.
    exact (run_result _ _ _ _ _ _ (reg_read_stops r dst count) Hrun
                      _ _ _ _ eq_refl Hfail).
  - intros h r src bytes count res t1 t2 Hrun.
    exact (run_result _ _ _ _ _ _ (reg_write_stops r src bytes count) Hrun
                      _ _ _ _ eq_refl Hfail).
  - intros h self arg ret t1 t2 Hrun.
    exact (run_result _ _ _ _ _ _ (reg_read_failure_runs self arg) Hrun
                      _ _ _ _ eq_refl Hfail).
Qed.

(** The spec's scenario: of four registers at 0x10, the third cannot
    be read.  The codec stops there, and the request returns the error
    after releasing the host, logging and freeing the buffer. *)
Lemma failed_transfer_stops_witness :
  let e := mock_env (mk_besdbg_data 0x10 4 0x5000) (demo_bus [0x12])
                    ([xaa; xbb; xcc; xdd], 0) (0, 0) 0x1000 in
  (run e [] (bes2600_sdio_reg_read 0x10 0x1000 4)
   = ((-5, [xaa; xbb; xcc]),
      [Ev (sdio_readb 0x10) (xaa, 0); Ev (sdio_readb 0x11) (xbb, 0);
       Ev (sdio_readb 0x12) (xcc, -5)])) /\
  (run e [] (bes2600_sdio_reg_write 0x10 0x1000 [xaa; xbb; xcc; xdd] 4)
   = (-5,
      [Ev (sdio_writeb xaa 0x10) 0; Ev (sdio_writeb xbb 0x11) 0;
       Ev (sdio_writeb xcc 0x12) (-5)])) /\
  (fst (run e [] (besdbg_ioctl demo_self (cmd_of RegisterRead) 0x4000)) = -5
   /\ existsb is_copy_to_user
        (snd (run e [] (besdbg_ioctl demo_self (cmd_of RegisterRead) 0x4000)))
      = false).
Proof.
  intros e.
  assert (Hr : failed_with (Ev (sdio_readb 0x12) (xcc, -5)) (-5))
    by (split; [ reflexivity | discriminate ]).
  assert (Hw : failed_with (Ev (sdio_writeb xcc 0x12) (-5)) (-5))
    by (split; [ reflexivity | discriminate ]).
  destruct (failed_transfer_stops e _ _ Hr) as (Hread & _ & Hreq).
  destruct (failed_transfer_stops e _ _ Hw) as (_ & Hwrite & _).
  split; [ | split ].
  - destruct (run e [] (bes2600_sdio_reg_read 0x10 0x1000 4))
      as [[ret buf] t] eqn:Hrun.
    vm_compute in Hrun. injection Hrun as <- <- <-. reflexivity.
  - destruct (run e [] (bes2600_sdio_reg_write 0x10 0x1000
                                               [xaa; xbb; xcc; xdd] 4))
      as [ret t] eqn:Hrun.
    vm_compute in Hrun. injection Hrun as <- <-. reflexivity.
  - specialize (Hreq [] demo_self 0x4000 (-5)
      [Ev (fetch_request 0x4000) (mk_besdbg_data 0x10 4 0x5000, 0);
       Ev (kmalloc 4) 0x1000; Ev sdio_claim_host tt;
       Ev (sdio_readb 0x10) (xaa, 0); Ev (sdio_readb 0x11) (xbb, 0)]
      [Ev sdio_release_host tt; Ev (dev_err "read failed") tt;
       Ev (kfree 0x1000) tt]).
    assert (Hrun :
      run e [] (besdbg_ioctl demo_self (cmd_of RegisterRead) 0x4000)
      = (-5,
         [Ev (fetch_request 0x4000) (mk_besdbg_data 0x10 4 0x5000, 0);
          Ev (kmalloc 4) 0x1000; Ev sdio_claim_host tt;
          Ev (sdio_readb 0x10) (xaa, 0); Ev (sdio_readb 0x11) (xbb, 0)]
         ++ Ev (sdio_readb 0x12) (xcc, -5)
         :: [Ev sdio_release_host tt; Ev (dev_err "read failed") tt;
             Ev (kfree 0x1000) tt]))
      by (vm_compute; reflexivity).
    destruct (Hreq Hrun) as (_ & _ & Hcopy).
    rewrite Hrun. cbn [fst snd]. split; [ reflexivity | exact Hcopy ].
Defined.

(** ** Block transfers *)

Lemma valid_length (x bound : Z) (other : bool) :
  (u32 x >? bound) || (u32 x =? 0) || other = false ->
  0 < u32 x <= bound.
Proof.
  intros H. apply orb_false_elim in H as [H _].
  apply orb_false_elim in H as [Hmax Hzero].
  apply Z.eqb_neq in Hzero. rewrite Z.gtb_ltb in Hmax.
  apply Z.ltb_ge in Hmax.
  assert (0 <= u32 x) by (unfold u32; apply Z.mod_pos_bound; lia).
  lia.
Qed.

Lemma block_read_ok_runs (self : besdbg_priv) (arg : Z) :
  all_runs (besdbg_ioctl self BESDBG_IOCTL_MEM_READ arg)
    (fun ret t =>
       ret = 0 ->
       exists raw kp bytes,
         0 < len (as_besdbg_data raw) <= 64 * 1024 /\
         t = block_ok_trace BlockRead arg raw kp bytes).
Proof.
  pick_case. cbn [bind trigger all_runs]. intros [raw u].
  destruct (u =? 0) eqn:Hu; cbn [negb all_runs]; [ | discriminate ].
  apply Z.eqb_eq in Hu. subst u.
  destruct (_ || _) eqn:Hvalid; cbn [bind all_runs]; [ discriminate | ].
  apply valid_length in Hvalid.
  intros kp. destruct (kp =? 0); cbn [bind all_runs]; [ discriminate | ].
  intros [] [buf ret] [].
  destruct (ret =? 0) eqn:Hret; cbn [negb all_runs].
  - apply Z.eqb_eq in Hret. subst ret.
    intros u'. destruct (u' =? 0) eqn:Hu'; cbn [negb all_runs]; intros [];
      [ | discriminate ].
    apply Z.eqb_eq in Hu'. subst u'. intros _.
    exists raw, kp, buf. split; [ cbn [len as_besdbg_data]; lia | reflexivity ].
  - intros [] [] ->. discriminate.
Qed.

Lemma block_write_ok_runs (self : besdbg_priv) (arg : Z) :
  all_runs (besdbg_ioctl self BESDBG_IOCTL_MEM_WRITE arg)
    (fun ret t =>
       ret = 0 ->
       exists raw kp bytes,
         0 < len (as_besdbg_data raw) <= 64 * 1024 /\
         t = block_ok_trace BlockWrite arg raw kp bytes).
Proof.
  pick_case. cbn [bind trigger all_runs]. intros [raw u].
  destruct (u =? 0) eqn:Hu; cbn [negb all_runs]; [ | discriminate ].
  apply Z.eqb_eq in Hu. subst u.
  destruct (_ || _) eqn:Hvalid; cbn [bind all_runs]; [ discriminate | ].
  apply valid_length in Hvalid.
  intros kp. destruct (kp =? 0); cbn [bind all_runs]; [ discriminate | ].
  intros [buf u']. destruct (u' =? 0) eqn:Hu'; cbn [negb bind all_runs];
    [ | discriminate ].
  apply Z.eqb_eq in Hu'. subst u'.
  intros [] ret [] [].
  destruct (ret =? 0) eqn:Hret; cbn [negb all_runs].
  - apply Z.eqb_eq in Hret. subst ret. intros _.
    exists raw, kp, buf. split; [ cbn [len as_besdbg_data]; lia | reflexivity ].
  - intros [] ->. discriminate.
Qed.

(** C7. A block read or block write that succeeds (returns 0) makes
    exactly one block transfer: a single [sdio_memcpy_fromio], resp.
    [sdio_memcpy_toio], at the address of the request and of exactly
    its length, between the claim and the release of the host; there is
    no loop that splits the transfer. *)
Theorem block_transfer_success (e : env) (h : list event)
  (self : besdbg_priv) (k : kind) (arg : Z) (t : list event) :
  k = BlockRead \/ k = BlockWrite ->
  run e h (besdbg_ioctl self (cmd_of k) arg) = (0, t) ->
  exists raw kp bytes,
    0 < len (as_besdbg_data raw) <= 64 * 1024 /\
    t = block_ok_trace k arg raw kp bytes /\
    filter is_block_xfer t = [block_xfer k (as_besdbg_data raw) kp bytes].
Proof.
  intros [-> | ->] Hrun; cbn [cmd_of] in Hrun.
  - destruct (run_result _ _ _ _ _ _ (block_read_ok_runs self arg) Hrun
                         eq_refl) as (raw & kp & bytes & Hlen & ->).
    exists raw, kp, bytes. repeat split; try apply Hlen.
  - destruct (run_result _ _ _ _ _ _ (block_write_ok_runs self arg) Hrun
                         eq_refl) as (raw & kp & bytes & Hlen & ->).
    exists raw, kp, bytes. repeat split; try apply Hlen.
Qed.

(** A block read of the four bytes AA BB CC DD at 0x10, and a block
    write of the bytes 01 02 03 04 at 0x1000. *)
Lemma block_transfer_success_witness :
  (exists raw kp bytes,
      0 < len (as_besdbg_data raw) <= 64 * 1024 /\
      [Ev (fetch_request 0x4000) (mk_besdbg_data 0x10 4 0x5000, 0);
       Ev (kmalloc 4) 0x1000;
       Ev sdio_claim_host tt;
       Ev (sdio_memcpy_fromio 0x1000 0x10 4) ([xaa; xbb; xcc; xdd], 0);
       Ev sdio_release_host tt;
       Ev (copy_to_user 0x5000 [xaa; xbb; xcc; xdd] 4) 0;
       Ev (kfree 0x1000) tt]
      = block_ok_trace BlockRead 0x4000 raw kp bytes /\
      filter is_block_xfer
        [Ev (fetch_request 0x4000) (mk_besdbg_data 0x10 4 0x5000, 0);
         Ev (kmalloc 4) 0x1000;
         Ev sdio_claim_host tt;
         Ev (sdio_memcpy_fromio 0x1000 0x10 4) ([xaa; xbb; xcc; xdd], 0);
         Ev sdio_release_host tt;
         Ev (copy_to_user 0x5000 [xaa; xbb; xcc; xdd] 4) 0;
         Ev (kfree 0x1000) tt]
      = [block_xfer BlockRead (as_besdbg_data raw) kp bytes]) /\
  (exists raw kp bytes,
      0 < len (as_besdbg_data raw) <= 64 * 1024 /\
      [Ev (fetch_request 0x4000) (mk_besdbg_data 0x1000 4 0x5000, 0);
       Ev (kmalloc 4) 0x1000;
       Ev (copy_from_user 0x1000 0x5000 4) ([x01; x02; x03; x04], 0);
       Ev sdio_claim_host tt;
       Ev (sdio_memcpy_toio 0x1000 [x01; x02; x03; x04] 4) 0;
       Ev sdio_release_host tt;
       Ev (kfree 0x1000) tt]
      = block_ok_trace BlockWrite 0x4000 raw kp bytes /\
      filter is_block_xfer
        [Ev (fetch_request 0x4000) (mk_besdbg_data 0x1000 4 0x5000, 0);
         Ev (kmalloc 4) 0x1000;
         Ev (copy_from_user 0x1000 0x5000 4) ([x01; x02; x03; x04], 0);
         Ev sdio_claim_host tt;
         Ev (sdio_memcpy_toio 0x1000 [x01; x02; x03; x04] 4) 0;
         Ev sdio_release_host tt;
         Ev (kfree 0x1000) tt]
      = [block_xfer BlockWrite (as_besdbg_data raw) kp bytes]).
Proof.
  split.
  - apply (block_transfer_success
             (mock_env (mk_besdbg_data 0x10 4 0x5000) (demo_bus [])
                       ([], 0) (0, 0) 0x1000)
             [] demo_self BlockRead 0x4000).
    + left. reflexivity.
    + vm_compute. reflexivity.
  - apply (block_transfer_success
             (mock_env (mk_besdbg_data 0x1000 4 0x5000) (demo_bus [])
                       ([x01; x02; x03; x04], 0) (0, 0) 0x1000)
             [] demo_self BlockWrite 0x4000).
    + right. reflexivity.
    + vm_compute. reflexivity.
Defined.

(** ** The preconditions of the register codec *)

(** C8 as stated fails: the codec functions do test their arguments.
    With a NULL destination and four bytes to read, the read codec
    answers [-EINVAL] where its loop alone would go to the bus. *)
Lemma codec_trusts_caller_counterexample : ~ codec_trusts_caller.
Proof.
  intros [Hread _]. specialize (Hread 0x10 0 4). discriminate Hread.
Qed.

Lemma all_runs_trivial {R : Type} (p : prog R) :
  all_runs p (fun _ _ => True).
Proof. induction p as [r | X c k IH]; cbn [all_runs]; auto. Qed.

Lemma dispatcher_meets_preconditions (self : besdbg_priv) (k : kind)
  (arg : Z) :
  k = RegisterRead \/ k = RegisterWrite ->
  all_runs (besdbg_ioctl self (cmd_of k) arg)
    (fun _ t => existsb is_claim t = true -> existsb is_byte_xfer t = true).
Proof.
  intros [-> | ->]; pick_case; cbn [bind trigger all_runs]; intros [raw u].
  - destruct (u =? 0); cbn [negb all_runs]; [ | discriminate ].
    destruct (_ || _) eqn:Hvalid; cbn [bind all_runs]; [ discriminate | ].
    apply valid_length in Hvalid.
    intros kp. destruct (kp =? 0) eqn:Hkp; cbn [bind all_runs];
      [ discriminate | ].
    intros []. unfold bes2600_sdio_reg_read.
    replace (len (as_besdbg_data raw) <=? 0) with false
      by (symmetry; apply Z.leb_gt; cbn [len as_besdbg_data]; lia).
    rewrite Hkp. cbn [orb].
    destruct (Z.to_nat (len (as_besdbg_data raw))) as [| n] eqn:Hn;
      [ cbn [len as_besdbg_data] in Hn; lia | ].
    cbn [reg_read_loop Z.eqb bind trigger all_runs]. intros [b err].
    eapply all_runs_weaken; [ | apply all_runs_trivial ].
    reflexivity.
  - destruct (u =? 0); cbn [negb all_runs]; [ | discriminate ].
    destruct (_ || _) eqn:Hvalid; cbn [bind all_runs]; [ discriminate | ].
    apply valid_length in Hvalid.
    intros kp. destruct (kp =? 0) eqn:Hkp; cbn [bind all_runs];
      [ discriminate | ].
    intros [buf u']. destruct (u' =? 0); cbn [negb bind all_runs];
      [ | discriminate ].
    intros []. unfold bes2600_sdio_reg_write.
    replace (len (as_besdbg_data raw) <=? 0) with false
      by (symmetry; apply Z.leb_gt; cbn [len as_besdbg_data]; lia).
    rewrite Hkp. cbn [orb].
    destruct (Z.to_nat (len (as_besdbg_data raw))) as [| n] eqn:Hn;
      [ cbn [len as_besdbg_data] in Hn; lia | ].
    cbn [reg_write_loop Z.eqb bind trigger all_runs]. intros err.
    eapply all_runs_weaken; [ | apply all_runs_trivial ].
    reflexivity.
Qed.

(** C8, amended.  The codec functions test their preconditions
    themselves: with [count <= 0] or a NULL buffer they return
    [-EINVAL] at once, without a single transfer.  The dispatcher
    enforces the same preconditions before it calls them: whenever a
    register request gets as far as claiming the host, the codec it then
    calls goes to the bus, so that test of the codec never fires under
    the dispatcher. *)
Theorem codec_checks_preconditions (reg ptr : Z) (bytes : list byte)
  (count : Z) :
  count <= 0 \/ ptr = 0 ->
  bes2600_sdio_reg_read reg ptr count = Ret (- EINVAL, []) /\
  bes2600_sdio_reg_write reg ptr bytes count = Ret (- EINVAL) /\
  (forall e h self k arg,
      k = RegisterRead \/ k = RegisterWrite ->
      existsb is_claim (snd (run e h (besdbg_ioctl self (cmd_of k) arg)))
      = true ->
      existsb is_byte_xfer (snd (run e h (besdbg_ioctl self (cmd_of k) arg)))
      = true).
Proof.
  intros Hbad.
  assert (Htest : (count <=? 0) || (ptr =? 0) = true).
  { destruct Hbad as [H | ->].
    - apply Z.leb_le in H. now rewrite H.
    - apply orb_true_r. }
  unfold bes2600_sdio_reg_read, bes2600_sdio_reg_write. rewrite Htest.
  repeat split.
  intros e h self k arg Hk.
  exact (all_runs_run _ _ (dispatcher_meets_preconditions self k arg Hk) e h).
Qed.

Lemma codec_checks_preconditions_witness :
  bes2600_sdio_reg_read 0x10 0x1000 0 = Ret (- EINVAL, []) /\
  bes2600_sdio_reg_write 0x10 0x1000 [] 0 = Ret (- EINVAL) /\
  (forall e h self k arg,
      k = RegisterRead \/ k = RegisterWrite ->
      existsb is_claim (snd (run e h (besdbg_ioctl self (cmd_of k) arg)))
      = true ->
      existsb is_byte_xfer (snd (run e h (besdbg_ioctl self (cmd_of k) arg)))
      = true).
Proof.
  apply (codec_checks_preconditions 0x10 0x1000 [] 0).
  left. lia.
Defined.

(** ** Detach *)

Lemma disconnect_runs (drvdata : option besdbg_priv) :
  all_runs (besdbg_disconnect drvdata)
    (fun d t =>
       d = None /\
       match drvdata with
       | None => t = []
       | Some self => exists dis gp, t = teardown_trace self dis gp
       end).
Proof.
  destruct drvdata as [self |]; cbn [besdbg_disconnect bind trigger all_runs].
  - intros [] [] [] [] dis [] gp. split; [ reflexivity | ].
    now exists dis, gp.
  - auto.
Qed.

(** C9. Two detaches in a row, the second starting from the driver
    data and the history the first left behind: the first clears the
    driver data, so the second finds NULL and makes no call at all.
    Over both calls the wake line is driven low at most once, the
    function is disabled at most once, and each registered resource is
    given back at most once (three or no such calls in all). *)
Theorem detach_twice (e : env) (h : list event)
  (drvdata : option besdbg_priv) :
  let r1 := run e h (besdbg_disconnect drvdata) in
  let r2 := run e (h ++ snd r1) (besdbg_disconnect (fst r1)) in
  fst r1 = None /\
  r2 = (None, []) /\
  (count is_wake_deassert (snd r1 ++ snd r2) <= 1)%nat /\
  (count is_disable (snd r1 ++ snd r2) <= 1)%nat /\
  (count is_free (snd r1 ++ snd r2) <= 3)%nat /\
  NoDup (filter is_free (snd r1 ++ snd r2)).
Proof.
  intros r1 r2.
  pose proof (all_runs_run _ _ (disconnect_runs drvdata) e h) as [Hd Ht].
  fold r1 in Hd, Ht. subst r2. rewrite Hd.
  cbn [besdbg_disconnect run snd]. rewrite app_nil_r.
  split; [ reflexivity | split; [ reflexivity | ] ].
  destruct drvdata as [self |].
  - destruct Ht as (dis & gp & ->). unfold count. cbn.
    repeat split; try lia.
    repeat constructor; cbn; intuition discriminate.
  - rewrite Ht. unfold count. cbn. repeat split; try lia. constructor.
Qed.

(** ** Requests in flight together *)

Lemma nth_error_set_nth_same {A : Type} (l : list A) :
  forall (i : nat) (a b : A),
    nth_error l i = Some b -> nth_error (set_nth i a l) i = Some a.
Proof.
  induction l as [| c l IH]; intros [| i] a b H; cbn in *;
    try discriminate; eauto.
Qed.

Lemma nth_error_set_nth_other {A : Type} (l : list A) :
  forall (i j : nat) (a : A),
    i <> j -> nth_error (set_nth i a l) j = nth_error l j.
Proof.
  induction l as [| c l IH]; intros [| i] [| j] a H; cbn;
    try reflexivity; try congruence.
  apply IH. congruence.
Qed.

Lemma owner_after_app (l1 l2 : list (nat * event)) :
  forall o,
    owner_after o (l1 ++ l2) =
    match owner_after o l1 with
    | Some o' => owner_after o' l2
    | None => None
    end.
Proof.
  induction l1 as [| [i ev] l1 IH]; intros o; cbn [app owner_after];
    [ reflexivity | ].
  destruct (log_step o i ev); [ apply IH | reflexivity ].
Qed.

Lemma all_runs_absurd {R : Type} (p : prog R) :
  all_runs p (fun _ _ => False) -> False.
Proof.
  intros H.
  exact (all_runs_run _ _ H
           (mock_env (mk_besdbg_data 0 0 0) (demo_bus []) ([], 0) (0, 0) 0)
           []).
Qed.

Lemma disciplined_step {X : Type} (held : bool) (c : call X)
  (k : X -> prog Z) (x : X) :
  disciplined held (Vis c k) ->
  exists held',
    guard_step held (Ev c x) = Some held' /\ disciplined held' (k x).
Proof.
  unfold disciplined. cbn [all_runs]. intros H. specialize (H x).
  cbn [guard_after] in H.
  destruct (guard_step held (Ev c x)) as [held' |].
  - now exists held'.
  - exfalso. apply (all_runs_absurd (k x)).
    eapply all_runs_weaken; [ | exact H ]. cbn beta. discriminate.
Qed.

(** One call allowed by the guard of the request that makes it is
    allowed by the guard of the pool, unless it is a claim that has to
    wait. *)
Lemma guard_step_log_step {X : Type} (o : option nat) (i : nat)
  (c : call X) (x : X) (held' : bool) :
  guard_step (holds o i) (Ev c x) = Some held' ->
  (claims c = true -> o = None) ->
  log_step o i (Ev c x) = Some (next_owner o i c) /\
  holds (next_owner o i c) i = held' /\
  (forall j, j <> i -> holds (next_owner o i c) j = holds o j).
Proof.
  unfold guard_step, log_step, next_owner. cbn [is_claim is_release].
  intros Hstep Hclaim.
  destruct (claims c).
  - rewrite (Hclaim eq_refl) in *. cbn [holds] in *.
    injection Hstep as <-. rewrite Nat.eqb_refl. repeat split.
    intros j Hj. now apply Nat.eqb_neq.
  - clear Hclaim. destruct (releases c).
    + destruct o as [j |]; cbn [holds] in *; [ | discriminate ].
      destruct (Nat.eqb j i) eqn:Hji; [ | discriminate ].
      injection Hstep as <-. repeat split.
      intros j' Hj'. apply Nat.eqb_eq in Hji. subst j.
      symmetry. apply Nat.eqb_neq. congruence.
    + destruct (is_bus_op (Ev c x)).
      * destruct o as [j |]; cbn [holds] in *; [ | discriminate ].
        destruct (Nat.eqb j i) eqn:Hji; [ | discriminate ].
        injection Hstep as <-. repeat split.
      * injection Hstep as <-. repeat split.
Qed.

Lemma pool_step_ok (e : env) (i : nat) (s : pool) :
  pool_ok s -> pool_ok (pool_step e i s).
Proof.
  intros Hs. pose proof Hs as [Hthreads Hlog]. unfold pool_step.
  destruct (nth_error (threads s) i) as [[r | X c k] |] eqn:Hi;
    try exact Hs.
  assert (Hgo :
    (claims c = true -> owner s = None) ->
    pool_ok {| owner := next_owner (owner s) i c;
               threads := set_nth i (k (e X (map snd (log s)) c)) (threads s);
               log := log s ++ [(i, Ev c (e X (map snd (log s)) c))] |}).
  { intros Hclaim.
    destruct (disciplined_step _ _ _ (e X (map snd (log s)) c)
                               (Hthreads _ _ Hi)) as (held' & Hstep & Hk).
    destruct (guard_step_log_step _ _ _ _ _ Hstep Hclaim)
      as (Hl & Hme & Hothers).
    split; cbn [owner threads log].
    - intros j p Hj. destruct (Nat.eq_dec i j) as [<- | Hij].
      + rewrite (nth_error_set_nth_same _ _ _ _ Hi) in Hj.
        injection Hj as <-. now rewrite Hme.
      + rewrite nth_error_set_nth_other in Hj by exact Hij.
        rewrite Hothers by congruence. now apply Hthreads.
    - rewrite owner_after_app, Hlog. cbn [owner_after]. now rewrite Hl. }
  destruct (claims c) eqn:Hc; destruct (owner s) eqn:Ho;
    try exact Hs; apply Hgo; congruence.
Qed.

Lemma run_pool_ok (e : env) (sched : list nat) :
  forall s, pool_ok s -> pool_ok (run_pool e sched s).
Proof.
  unfold run_pool.
  induction sched as [| i sched IH]; intros s Hs; cbn [fold_left];
    [ exact Hs | ].
  apply IH. now apply pool_step_ok.
Qed.

Lemma pool_of_ok (self : besdbg_priv) (reqs : list (Z * Z)) :
  pool_ok (pool_of self reqs).
Proof.
  split; cbn [pool_of owner threads log owner_after holds];
    [ | reflexivity ].
  intros i p Hi. apply nth_error_In, in_map_iff in Hi as ([cmd arg] & <- & _).
  apply ioctl_guard.
Qed.

Lemma bus_op_not_guard (ev : event) :
  is_bus_op ev = true -> is_claim ev = false /\ is_release ev = false.
Proof. destruct ev as [X c x]; destruct c; cbn; auto; discriminate. Qed.

(** While request [i] holds the host and does not release it, the log
    cannot record a change of owner. *)
Lemma owner_held_through (i : nat) (mid : list (nat * event)) :
  forall o',
    owner_after (Some i) mid = Some o' ->
    (forall ev', In (i, ev') mid -> is_release ev' = false) ->
    o' = Some i.
Proof.
  induction mid as [| [j ev] mid IH]; intros o' H Hno; cbn [owner_after] in H.
  - congruence.
  - unfold log_step in H.
    destruct (is_claim ev); [ discriminate | ].
    assert (Hrest : forall ev', In (i, ev') mid -> is_release ev' = false)
      by (intros ev' Hin; apply Hno; now right).
    destruct (is_release ev) eqn:Hrel.
    + destruct (Nat.eqb i j) eqn:Hij; [ | discriminate ].
      apply Nat.eqb_eq in Hij. subst j.
      rewrite (Hno ev) in Hrel by now left. discriminate.
    + destruct (is_bus_op ev).
      * destruct (Nat.eqb i j); [ now apply IH | discriminate ].
      * now apply IH.
Qed.

Lemma log_exclusive (l1 : list (nat * event)) (o o' : option nat)
  (i : nat) (c : event) (mid : list (nat * event)) (j : nat) (ev : event)
  (l2 : list (nat * event)) :
  owner_after o (l1 ++ (i, c) :: mid ++ (j, ev) :: l2) = Some o' ->
  is_claim c = true ->
  (forall ev', In (i, ev') mid -> is_release ev' = false) ->
  is_bus_op ev = true ->
  j = i.
Proof.
  intros H Hc Hno Hbus. rewrite owner_after_app in H.
  destruct (owner_after o l1) as [o1 |]; [ | discriminate ].
  cbn [owner_after] in H. unfold log_step at 1 in H. rewrite Hc in H.
  destruct o1; [ discriminate | ].
  rewrite owner_after_app in H.
  destruct (owner_after (Some i) mid) as [o2 |] eqn:Hmid; [ | discriminate ].
  apply owner_held_through in Hmid; [ | exact Hno ]. subst o2.
  cbn [owner_after] in H. unfold log_step in H.
  destruct (bus_op_not_guard _ Hbus) as [Hcl Hrl].
  rewrite Hcl, Hrl, Hbus in H.
  destruct (Nat.eqb i j) eqn:Hij; [ | discriminate ].
  apply Nat.eqb_eq in Hij. congruence.
Qed.

(** C10, amended.  A reset claims the host once, before the hardware
    reset, and releases it once, after the function enable: the
    hardware reset, the wake line going high, the settle delay and the
    enable all happen with the host held, and nothing in between
    releases it.
    And in every interleaving of requests on the device, from the
    claim of a request to its release every use of the bus is that
    request's own: no transfer of another request comes in between. *)
Theorem reset_holds_guard_throughout :
  (forall e h self arg,
      exists g0 rst g1 en,
        snd (run e h (besdbg_ioctl self BESDBG_IOCTL_RESET arg))
        = [Ev (gpiod_direction_output (wakeup_device_gpio self) 0) g0;
           Ev sdio_claim_host tt]
          ++ reset_section self rst g1 en
          ++ [Ev sdio_release_host tt] /\
        guard_after true (reset_section self rst g1 en) = Some true /\
        existsb is_release (reset_section self rst g1 en) = false) /\
  (forall e sched self reqs l1 i c mid j ev l2,
      log (run_pool e sched (pool_of self reqs))
      = l1 ++ (i, c) :: mid ++ (j, ev) :: l2 ->
      is_claim c = true ->
      (forall ev', In (i, ev') mid -> is_release ev' = false) ->
      is_bus_op ev = true ->
      j = i).
Proof.
  split.
  - intros e h self arg.
    destruct (all_runs_run _ _ (reset_all_runs self arg) e h)
      as (g0 & rst & g1 & en & _ & Hrun).
    exists g0, rst, g1, en. rewrite Hrun.
    split; [ reflexivity | ].
    unfold reset_section. destruct (rst =? 0); split; reflexivity.
  - intros e sched self reqs l1 i c mid j ev l2 Hlog.
    pose proof (ok_log _ (run_pool_ok e sched _ (pool_of_ok self reqs)))
      as Hok.
    rewrite Hlog in Hok. exact (log_exclusive _ _ _ _ _ _ _ _ _ Hok).
Qed.

Example demo_pool_log :
  log demo_pool
  = [(0%nat, Ev (gpiod_direction_output 0x7100 0) 0);
     (0%nat, Ev sdio_claim_host tt);
     (1%nat, Ev (fetch_request 0x4000) (mk_besdbg_data 0x10 2 0x5000, 0));
     (1%nat, Ev (kmalloc 2) 0x1000);
     (0%nat, Ev mmc_hw_reset 0);
     (0%nat, Ev (gpiod_direction_output 0x7100 1) 0);
     (0%nat, Ev (msleep 10) tt);
     (0%nat, Ev sdio_enable_func 0);
     (0%nat, Ev sdio_release_host tt);
     (1%nat, Ev sdio_claim_host tt);
     (1%nat, Ev (sdio_readb 0x10) (xaa, 0));
     (1%nat, Ev (sdio_readb 0x11) (xbb, 0));
     (1%nat, Ev sdio_release_host tt);
     (1%nat, Ev (copy_to_user 0x5000 [xaa; xbb] 2) 0);
     (1%nat, Ev (kfree 0x1000) tt)].
Proof. vm_compute. reflexivity. Qed.

Lemma reset_holds_guard_throughout_witness :
  exists j : nat,
    nth_error (log demo_pool) 7 = Some (j, Ev sdio_enable_func 0) /\
    j = 0%nat.
Proof.
  exists 0%nat. split; [ vm_compute; reflexivity | ].
  apply (proj2 reset_holds_guard_throughout
           (mock_env (mk_besdbg_data 0x10 2 0x5000) (demo_bus [])
                     ([], 0) (0, 0) 0x1000)
           demo_sched demo_self
           [(BESDBG_IOCTL_RESET, 0); (BESDBG_IOCTL_REG_READ, 0x4000)]
           [(0%nat, Ev (gpiod_direction_output 0x7100 0) 0)]
           0%nat (Ev sdio_claim_host tt)
           [(1%nat, Ev (fetch_request 0x4000)
                       (mk_besdbg_data 0x10 2 0x5000, 0));
            (1%nat, Ev (kmalloc 2) 0x1000);
            (0%nat, Ev mmc_hw_reset 0);
            (0%nat, Ev (gpiod_direction_output 0x7100 1) 0);
            (0%nat, Ev (msleep 10) tt)]
           0%nat (Ev sdio_enable_func 0)
           [(0%nat, Ev sdio_release_host tt);
            (1%nat, Ev sdio_claim_host tt);
            (1%nat, Ev (sdio_readb 0x10) (xaa, 0));
            (1%nat, Ev (sdio_readb 0x11) (xbb, 0));
            (1%nat, Ev sdio_release_host tt);
            (1%nat, Ev (copy_to_user 0x5000 [xaa; xbb] 2) 0);
            (1%nat, Ev (kfree 0x1000) tt)]).
  - vm_compute. reflexivity.
  - reflexivity.
  - intros ev' Hin.
    repeat (destruct Hin as [Hin | Hin];
            [ try discriminate Hin; injection Hin as <-; reflexivity | ]).
    destruct Hin.
  - reflexivity.
Defined.

(** C10 as stated fails in its last clause: other requests are not
    blocked while a reset holds the host.  Only [sdio_claim_host]
    waits; here a register read fetches its request and allocates its
    buffer between the settle delay of a reset and the release of the
    host, and over the whole schedule it never spends a turn waiting. *)
Lemma others_stand_still_counterexample :
  ~ others_stand_still /\
  waits overlap_env overlap_sched (pool_of demo_self overlap_reqs) 1 = 0%nat /\
  log (run_pool overlap_env overlap_sched (pool_of demo_self overlap_reqs))
  = [(0%nat, Ev (gpiod_direction_output 0x7100 0) 0);
     (0%nat, Ev sdio_claim_host tt);
     (0%nat, Ev mmc_hw_reset 0);
     (0%nat, Ev (gpiod_direction_output 0x7100 1) 0);
     (0%nat, Ev (msleep 10) tt);
     (1%nat, Ev (fetch_request 0x4000) (mk_besdbg_data 0x10 2 0x5000, 0));
     (1%nat, Ev (kmalloc 2) 0x1000);
     (0%nat, Ev sdio_enable_func 0);
     (0%nat, Ev sdio_release_host tt);
     (1%nat, Ev sdio_claim_host tt);
     (1%nat, Ev (sdio_readb 0x10) (xaa, 0));
     (1%nat, Ev (sdio_readb 0x11) (xbb, 0));
     (1%nat, Ev sdio_release_host tt);
     (1%nat, Ev (copy_to_user 0x5000 [xaa; xbb] 2) 0);
     (1%nat, Ev (kfree 0x1000) tt)].
Proof.
  split; [ | split; vm_compute; reflexivity ].
  intros H.
  specialize (H overlap_env overlap_sched demo_self overlap_reqs
                [(0%nat, Ev (gpiod_direction_output 0x7100 0) 0)]
                0%nat 0
                [(0%nat, Ev mmc_hw_reset 0);
                 (0%nat, Ev (gpiod_direction_output 0x7100 1) 0);
                 (0%nat, Ev (msleep 10) tt)]
                1%nat
                (Ev (fetch_request 0x4000) (mk_besdbg_data 0x10 2 0x5000, 0))
                [(1%nat, Ev (kmalloc 2) 0x1000);
                 (0%nat, Ev sdio_enable_func 0);
                 (0%nat, Ev sdio_release_host tt);
                 (1%nat, Ev sdio_claim_host tt);
                 (1%nat, Ev (sdio_readb 0x10) (xaa, 0));
                 (1%nat, Ev (sdio_readb 0x11) (xbb, 0));
                 (1%nat, Ev sdio_release_host tt);
                 (1%nat, Ev (copy_to_user 0x5000 [xaa; xbb] 2) 0);
                 (1%nat, Ev (kfree 0x1000) tt)]).
  assert (Hji : 1%nat = 0%nat); [ apply H | discriminate Hji ].
  - reflexivity.
  - vm_compute. reflexivity.
  - intros ev' Hin.
    repeat (destruct Hin as [Hin | Hin];
            [ try discriminate Hin; injection Hin as <-; reflexivity | ]).
    destruct Hin.
Qed.

(** * Further properties of the dispatcher *)

(** ** Register writes *)

Lemma reg_write_loop_ok (n : nat) :
  forall (reg : Z) (src : list byte),
    all_runs (reg_write_loop n reg 0 src)
             (fun ret t => ret = 0 -> t = writeb_trace reg src (repeat 0 n)).
Proof.
  induction n as [| n IH]; intros reg src; [ cbn; auto | ].
  cbn [reg_write_loop Z.eqb bind trigger all_runs]. intros e.
  destruct (Z.eq_dec e 0) as [-> | He].
  - eapply all_runs_weaken; [ | apply IH ].
    intros ret t Ht Hret. cbn [repeat writeb_trace]. now rewrite Ht.
  - rewrite reg_write_loop_fail by exact He. cbn [all_runs]. congruence.
Qed.

Lemma writeb_trace_writes_at (n : nat) :
  forall (reg : Z) (src : list byte),
    reg = u32 reg -> writeb_trace reg src (repeat 0 n) = writes_at reg src n.
Proof.
  unfold writes_at.
  induction n as [| n IH]; intros reg src Hreg; [ reflexivity | ].
  cbn [repeat writeb_trace seq map].
  rewrite Z.add_0_r, <- Hreg. f_equal.
  - now destruct src.
  - rewrite IH by (unfold u32; now rewrite Z.mod_mod by lia).
    rewrite <- seq_shift, map_map. apply map_ext. intros i.
    f_equal. f_equal.
    + now destruct src; destruct i.
    + unfold u32. rewrite Zplus_mod_idemp_l. f_equal. lia.
Qed.

Lemma reg_write_ok_runs (self : besdbg_priv) (arg : Z) :
  all_runs (besdbg_ioctl self BESDBG_IOCTL_REG_WRITE arg)
    (fun ret t =>
       ret = 0 ->
       exists raw kp bytes,
         0 < len (as_besdbg_data raw) <= 64 * 1024 /\
         t = reg_write_ok_trace arg raw kp bytes).
Proof.
  pick_case. cbn [bind trigger all_runs]. intros [raw u].
  destruct (u =? 0) eqn:Hu; cbn [negb all_runs]; [ | discriminate ].
  apply Z.eqb_eq in Hu. subst u.
  destruct (_ || _) eqn:Hvalid; cbn [bind all_runs]; [ discriminate | ].
  apply valid_length in Hvalid.
  intros kp. destruct (kp =? 0) eqn:Hkp; cbn [bind all_runs];
    [ discriminate | ].
  intros [buf u']. destruct (u' =? 0) eqn:Hu'; cbn [negb bind all_runs];
    [ | discriminate ].
  apply Z.eqb_eq in Hu'. subst u'.
  intros []. apply all_runs_bind. unfold bes2600_sdio_reg_write.
  replace (len (as_besdbg_data raw) <=? 0) with false
    by (symmetry; apply Z.leb_gt; cbn [len as_besdbg_data]; lia).
  rewrite Hkp. cbn [orb].
  eapply all_runs_weaken; [ | apply reg_write_loop_ok ].
  intros ret tc Htc. cbn [all_runs]. intros [] [].
  destruct (ret =? 0) eqn:Hret; cbn [negb all_runs].
  - apply Z.eqb_eq in Hret. intros _. rewrite (Htc Hret).
    exists raw, kp, buf. split; [ cbn [len as_besdbg_data]; lia | ].
    unfold reg_write_ok_trace, fetch_request. cbn [app].
    now rewrite writeb_trace_writes_at by apply as_besdbg_data_reg.
  - intros [] ->. discriminate.
Qed.

(** X1. A register write that succeeds (returns 0) has a length [N]
    with [0 < N <= 64 KiB]; it copies the payload from the client into
    its buffer before it claims the host, then makes exactly [N]
    single-byte writes, the [i]-th sending byte [i] of the payload to
    address [reg + i] (an unsigned 32-bit sum), releases the host and
    frees the buffer. *)
Theorem register_write_success (e : env) (h : list event)
  (self : besdbg_priv) (arg : Z) (t : list event) :
  run e h (besdbg_ioctl self (cmd_of RegisterWrite) arg) = (0, t) ->
  exists raw kp bytes,
    0 < len (as_besdbg_data raw) <= 64 * 1024 /\
    t = reg_write_ok_trace arg raw kp bytes.
Proof.
  intros Hrun.
  exact (run_result _ _ _ _ _ _ (reg_write_ok_runs self arg) Hrun eq_refl).
Qed.

Lemma register_write_success_witness :
  exists raw kp bytes,
    0 < len (as_besdbg_data raw) <= 64 * 1024 /\
    [Ev (fetch_request 0x4000) (mk_besdbg_data 0x10 3 0x5000, 0);
     Ev (kmalloc 3) 0x1000;
     Ev (copy_from_user 0x1000 0x5000 3) ([x01; x02; x03], 0);
     Ev sdio_claim_host tt;
     Ev (sdio_writeb x01 0x10) 0;
     Ev (sdio_writeb x02 0x11) 0;
     Ev (sdio_writeb x03 0x12) 0;
     Ev sdio_release_host tt;
     Ev (kfree 0x1000) tt]
    = reg_write_ok_trace 0x4000 raw kp bytes.
Proof.
  apply (register_write_success
           (mock_env (mk_besdbg_data 0x10 3 0x5000) (demo_bus [])
                     ([x01; x02; x03], 0) (0, 0) 0x1000)
           [] demo_self 0x4000).
  vm_compute. reflexivity.
Defined.

(** ** Requests that fail before the transfer *)

(** X2. When the request record cannot be fetched ([copy_from_user]
    leaves bytes uncopied), each of the four data requests returns
    [-EFAULT] and the fetch is the only call it made. *)
Theorem unreadable_request_faults (e : env) (h : list event)
  (self : besdbg_priv) (k : kind) (arg : Z) (raw : besdbg_data) (u : Z) :
  e _ h (fetch_request arg) = (raw, u) ->
  u <> 0 ->
  run e h (besdbg_ioctl self (cmd_of k) arg)
  = (- EFAULT, [Ev (fetch_request arg) (raw, u)]).
Proof.
  unfold fetch_request. intros Hfetch Hu. apply Z.eqb_neq in Hu.
  destruct k; pick_case; cbn [bind trigger run]; rewrite Hfetch, Hu;
    reflexivity.
Qed.

Lemma unreadable_request_faults_witness :
  run (fun X h c =>
         match c in call X return X with
         | copy_from_user_struct _ _ => (mk_besdbg_data 0 0 0, 16)
         | c' => mock_env (mk_besdbg_data 0 0 0) (demo_bus []) ([], 0)
                          (0, 0) 0x1000 _ h c'
         end)
      [] (besdbg_ioctl demo_self (cmd_of RegisterRead) 0)
  = (- EFAULT, [Ev (fetch_request 0) (mk_besdbg_data 0 0 0, 16)]).
Proof.
  apply (unreadable_request_faults
           (fun X h c =>
              match c in call X return X with
              | copy_from_user_struct _ _ => (mk_besdbg_data 0 0 0, 16)
              | c' => mock_env (mk_besdbg_data 0 0 0) (demo_bus []) ([], 0)
                               (0, 0) 0x1000 _ h c'
              end)
           [] demo_self RegisterRead 0 (mk_besdbg_data 0 0 0) 16).
  - reflexivity.
  - discriminate.
Defined.

(** X3. When the request is valid but [kmalloc] answers NULL, each of
    the four data requests returns [-ENOMEM] after those two calls: the
    payload is not read, the host is not claimed, nothing is freed. *)
Theorem allocation_failure (e : env) (h : list event)
  (self : besdbg_priv) (k : kind) (arg : Z) (raw : besdbg_data) :
  e _ h (fetch_request arg) = (raw, 0) ->
  0 < len (as_besdbg_data raw) <= max_length k ->
  data (as_besdbg_data raw) <> 0 ->
  e _ (h ++ [Ev (fetch_request arg) (raw, 0)])
    (kmalloc (len (as_besdbg_data raw))) = 0 ->
  run e h (besdbg_ioctl self (cmd_of k) arg)
  = (- ENOMEM,
     [Ev (fetch_request arg) (raw, 0);
      Ev (kmalloc (len (as_besdbg_data raw))) 0]).
Proof.
  unfold fetch_request. intros Hfetch Hlen Hdata Halloc.
  assert (Htest :
    (len (as_besdbg_data raw) >? max_length k)
    || (len (as_besdbg_data raw) =? 0)
    || (data (as_besdbg_data raw) =? 0) = false).
  { apply Z.eqb_neq in Hdata. rewrite Hdata, orb_false_r.
    apply orb_false_intro; [ rewrite Z.gtb_ltb; apply Z.ltb_ge | apply Z.eqb_neq ];
      lia. }
  destruct k; pick_case; cbn [bind trigger run]; rewrite Hfetch;
    cbn [Z.eqb negb max_length] in *;
    change (1024 * 64) with (64 * 1024); rewrite Htest;
    cbn [bind run]; rewrite Halloc; reflexivity.
Qed.

Lemma allocation_failure_witness :
  run (mock_env (mk_besdbg_data 0x10 4 0x5000) (demo_bus []) ([], 0)
                (0, 0) 0)
      [] (besdbg_ioctl demo_self (cmd_of BlockRead) 0x4000)
  = (- ENOMEM,
     [Ev (fetch_request 0x4000) (mk_besdbg_data 0x10 4 0x5000, 0);
      Ev (kmalloc 4) 0]).
Proof.
  apply (allocation_failure
           (mock_env (mk_besdbg_data 0x10 4 0x5000) (demo_bus []) ([], 0)
                     (0, 0) 0)
           [] demo_self BlockRead 0x4000 (mk_besdbg_data 0x10 4 0x5000)).
  - reflexivity.
  - vm_compute. split; [ reflexivity | discriminate ].
  - discriminate.
  - reflexivity.
Defined.

(** ** Unknown requests *)

(** X4. [besdbg_ioctl] makes no call at all exactly when [cmd] is none
    of the five request numbers, and then it returns [-EINVAL]. *)
Theorem unknown_request (e : env) (h : list event) (self : besdbg_priv)
  (cmd arg : Z) :
  (snd (run e h (besdbg_ioctl self cmd arg)) = [] <->
   cmd <> BESDBG_IOCTL_RESET /\ forall k, cmd <> cmd_of k) /\
  (snd (run e h (besdbg_ioctl self cmd arg)) = [] ->
   fst (run e h (besdbg_ioctl self cmd arg)) = - EINVAL).
Proof.
  assert (Hknown : forall c,
    c = BESDBG_IOCTL_RESET \/ (exists k, c = cmd_of k) ->
    snd (run e h (besdbg_ioctl self c arg)) <> []).
  { intros c [-> | [k ->]]; [ | destruct k ]; pick_case;
      cbn [bind trigger run];
      match goal with |- context [run ?e' ?h' ?p] => destruct (run e' h' p) end;
      discriminate. }
  assert (Hunknown :
    cmd <> BESDBG_IOCTL_RESET -> (forall k, cmd <> cmd_of k) ->
    run e h (besdbg_ioctl self cmd arg) = (- EINVAL, [])).
  { intros Hr Hk. unfold besdbg_ioctl.
    apply Z.eqb_neq in Hr. rewrite Hr.
    pose proof (Hk RegisterRead) as H1. pose proof (Hk RegisterWrite) as H2.
    pose proof (Hk BlockRead) as H3. pose proof (Hk BlockWrite) as H4.
    cbn [cmd_of] in *. apply Z.eqb_neq in H1, H2, H3, H4.
    rewrite H1, H2, H3, H4. reflexivity. }
  split; [ split | ].
  - intros Hnil. split.
    + intros ->. apply (Hknown BESDBG_IOCTL_RESET); auto.
    + intros k ->. apply (Hknown (cmd_of k)); eauto.
  - intros [Hr Hk]. now rewrite Hunknown.
  - intros Hnil.
    destruct (Z.eq_dec cmd BESDBG_IOCTL_RESET) as [-> | Hr];
      [ exfalso; apply (Hknown BESDBG_IOCTL_RESET); auto | ].
    destruct (Z.eq_dec cmd BESDBG_IOCTL_REG_READ) as [-> | H1];
      [ exfalso; apply (Hknown (cmd_of RegisterRead)); eauto | ].
    destruct (Z.eq_dec cmd BESDBG_IOCTL_REG_WRITE) as [-> | H2];
      [ exfalso; apply (Hknown (cmd_of RegisterWrite)); eauto | ].
    destruct (Z.eq_dec cmd BESDBG_IOCTL_MEM_READ) as [-> | H3];
      [ exfalso; apply (Hknown (cmd_of BlockRead)); eauto | ].
    destruct (Z.eq_dec cmd BESDBG_IOCTL_MEM_WRITE) as [-> | H4];
      [ exfalso; apply (Hknown (cmd_of BlockWrite)); eauto | ].
    rewrite Hunknown; [ reflexivity | exact Hr | ].
    intros k; destruct k; assumption.
Qed.

(** ** What a request does while it holds the host *)

(** Walking through the paths of [besdbg_ioctl]: [rd] and [wr] say what
    is known of the calls of the two codec functions. *)
Ltac answer :=
  let x := fresh "x" in
  intros x;
  let T := type of x in
  let T := eval hnf in T in
  match T with
  | unit => destruct x
  | prod _ _ => destruct x
  | _ => idtac
  end.

Ltac walk rd wr :=
  repeat match goal with
    | |- forall _ : unit, _ => answer
    | |- forall _ : Z, _ => answer
    | |- forall _ : (_ * _)%type, _ => answer
    | |- all_runs (Vis _ _) _ => cbn [all_runs]; answer
    | |- all_runs (Ret _) _ => cbn [all_runs]
    | |- all_runs (bind (bes2600_sdio_reg_read _ _ _) _) _ =>
        apply all_runs_bind; eapply all_runs_weaken; [ | apply rd ];
        cbn beta; intros [? ?] ? ?
    | |- all_runs (bind (bes2600_sdio_reg_write _ _ _ _) _) _ =>
        apply all_runs_bind; eapply all_runs_weaken; [ | apply wr ];
        cbn beta; intros ? ? ?
    | |- all_runs (bind (if negb (?x =? 0) then _ else _) _) _ =>
        destruct (x =? 0) eqn:?; cbn [negb]
    | |- all_runs (bind _ _) _ => progress cbn [bind trigger]
    | |- all_runs (if negb (?x =? 0) then _ else _) _ =>
        destruct (x =? 0) eqn:?; cbn [negb]
    | |- all_runs (if ?b then _ else _) _ => destruct b eqn:?
    | |- all_runs (let r := _ in _) _ => cbv zeta
    end.

Lemma held_events_byte_xfers (t rest : list event) :
  forallb is_byte_xfer t = true ->
  held_events true (t ++ rest) = t ++ held_events true rest.
Proof.
  induction t as [| ev t IH]; intros Ht; [ reflexivity | ].
  cbn [forallb] in Ht. apply andb_prop in Ht as [Hev Ht].
  cbn [app held_events]. rewrite (IH Ht).
  destruct ev as [X c x]; destruct c; cbn in Hev |- *;
    try discriminate; reflexivity.
Qed.

Lemma byte_xfers_transfers (t : list event) :
  forallb is_byte_xfer t = true -> forallb is_transfer t = true.
Proof.
  intros H. rewrite forallb_forall in *. intros ev Hev.
  unfold is_transfer. now rewrite (H ev Hev).
Qed.

Lemma data_request_held (self : besdbg_priv) (k : kind) (arg : Z) :
  all_runs (besdbg_ioctl self (cmd_of k) arg)
    (fun _ t => forallb is_transfer (held_events false t) = true).
Proof.
  destruct k; pick_case;
    walk reg_read_byte_xfers reg_write_byte_xfers.
  all: cbn [app held_events is_claim is_release claims releases].
  all: rewrite ?held_events_byte_xfers by assumption.
  all: rewrite ?forallb_app, ?byte_xfers_transfers by assumption.
  all: reflexivity.
Qed.

(** X5. Between claiming the host and releasing it, a data request
    does nothing but transfer: every call it makes with the host held
    is a single-byte or a block transfer.  The copies from and to the
    client, the allocation and the freeing of the buffer, and the
    logging all happen with the host free. *)
Theorem only_transfers_under_guard (e : env) (h : list event)
  (self : besdbg_priv) (k : kind) (arg : Z) :
  forallb is_transfer
    (held_events false (snd (run e h (besdbg_ioctl self (cmd_of k) arg))))
  = true.
Proof.
  exact (all_runs_run _ _ (data_request_held self k arg) e h).
Qed.

(** ** Bounds on what one request asks for *)

Lemma existsb_byte_xfers (P : event -> bool) (t : list event) :
  (forall ev, is_byte_xfer ev = true -> P ev = false) ->
  forallb is_byte_xfer t = true -> existsb P t = false.
Proof.
  intros HP. induction t as [| ev t IH]; [ reflexivity | ].
  cbn [forallb existsb]. intros H. apply andb_prop in H as [Hev Ht].
  now rewrite (HP ev Hev), (IH Ht).
Qed.

Lemma allocs_byte_xfers (t rest : list event) :
  forallb is_byte_xfer t = true -> allocs (t ++ rest) = allocs rest.
Proof.
  induction t as [| ev t IH]; intros Ht; [ reflexivity | ].
  cbn [forallb] in Ht. apply andb_prop in Ht as [Hev Ht].
  cbn [app allocs].
  destruct ev as [X c x]; destruct c; cbn in Hev; try discriminate;
    exact (IH Ht).
Qed.

Lemma data_request_allocs (self : besdbg_priv) (k : kind) (arg : Z) :
  all_runs (besdbg_ioctl self (cmd_of k) arg)
    (fun _ t =>
       allocs t = [] \/
       exists n, allocs t = [n] /\ 0 < n <= max_length k).
Proof.
  destruct k; pick_case;
    walk reg_read_byte_xfers reg_write_byte_xfers.
  all: cbn [app allocs].
  all: rewrite ?allocs_byte_xfers by assumption.
  all: cbn [allocs]; auto.
  all: right; eexists; split; [ reflexivity | ].
  all: match goal with
       | H : (_ || _ || _) = false |- _ => apply valid_length in H
       end.
  all: cbn [len as_besdbg_data max_length]; lia.
Qed.

(** X6. A data request calls [kmalloc] at most once, and the size it
    asks for is the length of the request, which lies between 1 and the
    bound of its kind: at most 32 bytes for a register read and 64 KiB
    for the others, whatever length the client wrote in the record. *)
Theorem allocation_bounded (e : env) (h : list event)
  (self : besdbg_priv) (k : kind) (arg : Z) :
  (length (allocs (snd (run e h (besdbg_ioctl self (cmd_of k) arg)))) <= 1)%nat
  /\ Forall (fun n => 0 < n <= max_length k)
            (allocs (snd (run e h (besdbg_ioctl self (cmd_of k) arg)))).
Proof.
  destruct (all_runs_run _ _ (data_request_allocs self k arg) e h)
    as [-> | (n & -> & Hn)]; cbn [length]; split; auto.
Qed.

Lemma reg_loop_length_read (n : nat) :
  forall (reg ret : Z) (dst : list byte),
    all_runs (reg_read_loop n reg ret dst)
             (fun _ t => (length t <= n)%nat).
Proof.
  induction n as [| n IH]; intros reg ret dst; [ cbn; lia | ].
  cbn [reg_read_loop]. destruct (ret =? 0); [ | cbn; lia ].
  cbn [bind trigger all_runs]. intros [b e].
  eapply all_runs_weaken; [ | apply IH ]. cbn. intros; lia.
Qed.

Lemma reg_loop_length_write (n : nat) :
  forall (reg ret : Z) (src : list byte),
    all_runs (reg_write_loop n reg ret src)
             (fun _ t => (length t <= n)%nat).
Proof.
  induction n as [| n IH]; intros reg ret src; [ cbn; lia | ].
  cbn [reg_write_loop]. destruct (ret =? 0); [ | cbn; lia ].
  cbn [bind trigger all_runs]. intros e.
  eapply all_runs_weaken; [ | apply IH ]. cbn. intros; lia.
Qed.

Lemma reg_read_length (reg dst count : Z) :
  all_runs (bes2600_sdio_reg_read reg dst count)
    (fun _ t => forallb is_byte_xfer t = true /\
                Z.of_nat (length t) <= Z.max 0 count).
Proof.
  apply all_runs_conj; [ apply reg_read_byte_xfers | ].
  unfold bes2600_sdio_reg_read. destruct (_ || _); [ cbn; lia | ].
  eapply all_runs_weaken; [ | apply reg_loop_length_read ].
  cbn beta. intros; lia.
Qed.

Lemma reg_write_length (reg src : Z) (bytes : list byte) (count : Z) :
  all_runs (bes2600_sdio_reg_write reg src bytes count)
    (fun _ t => forallb is_byte_xfer t = true /\
                Z.of_nat (length t) <= Z.max 0 count).
Proof.
  apply all_runs_conj; [ apply reg_write_byte_xfers | ].
  unfold bes2600_sdio_reg_write. destruct (_ || _); [ cbn; lia | ].
  eapply all_runs_weaken; [ | apply reg_loop_length_write ].
  cbn beta. intros; lia.
Qed.

Lemma count_app (P : event -> bool) (a b : list event) :
  count P (a ++ b) = (count P a + count P b)%nat.
Proof. unfold count. now rewrite filter_app, length_app. Qed.

Lemma count_cons (P : event -> bool) (ev : event) (t : list event) :
  count P (ev :: t) = ((if P ev then 1 else 0) + count P t)%nat.
Proof. unfold count. cbn [filter]. now destruct (P ev). Qed.

Lemma count_byte_xfers (t : list event) :
  forallb is_byte_xfer t = true ->
  count is_byte_xfer t = length t /\ count is_block_xfer t = 0%nat.
Proof.
  unfold count. induction t as [| ev t IH]; [ auto | ].
  cbn [forallb filter]. intros H. apply andb_prop in H as [Hev Ht].
  destruct (IH Ht) as [IH1 IH2]. rewrite Hev.
  replace (is_block_xfer ev) with false
    by (destruct ev as [X c x]; destruct c; cbn in Hev |- *; congruence).
  cbn [length]. auto.
Qed.

Lemma data_request_transfers (self : besdbg_priv) (k : kind) (arg : Z) :
  all_runs (besdbg_ioctl self (cmd_of k) arg)
    (fun _ t =>
       Z.of_nat (count is_byte_xfer t + count is_block_xfer t)
       <= max_transfers k /\
       match k with
       | RegisterRead | RegisterWrite => count is_block_xfer t = 0%nat
       | BlockRead | BlockWrite => count is_byte_xfer t = 0%nat
       end).
Proof.
  destruct k; pick_case; walk reg_read_length reg_write_length.
  all: repeat match goal with
         | H : _ /\ _ |- _ => destruct H
         | H : (_ || _ || _) = false |- _ => apply valid_length in H
         | H : forallb is_byte_xfer _ = true |- _ =>
             apply count_byte_xfers in H
         end.
  all: rewrite ?count_cons, ?count_app, ?count_cons.
  all: repeat match goal with
         | H : count _ ?t = _ |- _ => rewrite H
         end.
  all: cbn [max_transfers max_length len as_besdbg_data] in *.
  all: unfold count; cbn [filter is_byte_xfer is_block_xfer length app].
  all: split; lia.
Qed.

(** X7. A register request makes at most as many single-byte
    transfers as the bound of its kind allows (32 reads, or 64 KiB of
    writes) and no block transfer; a block request makes at most one
    block transfer and no single-byte transfer. *)
Theorem transfers_bounded (e : env) (h : list event)
  (self : besdbg_priv) (k : kind) (arg : Z) :
  let t := snd (run e h (besdbg_ioctl self (cmd_of k) arg)) in
  Z.of_nat (count is_byte_xfer t + count is_block_xfer t)
  <= max_transfers k /\
  match k with
  | RegisterRead | RegisterWrite => count is_block_xfer t = 0%nat
  | BlockRead | BlockWrite => count is_byte_xfer t = 0%nat
  end.
Proof.
  exact (all_runs_run _ _ (data_request_transfers self k arg) e h).
Qed.

(** ** What the client gets *)

Lemma request_delivery (self : besdbg_priv) (cmd arg : Z) :
  all_runs (besdbg_ioctl self cmd arg)
    (fun ret t =>
       (existsb delivered t = true -> ret = 0) /\
       (count is_copy_to_user t <= 1)%nat).
Proof.
  assert (Hd : forall ev, is_byte_xfer ev = true -> delivered ev = false)
    by (intros [X c x]; destruct c; cbn; congruence).
  assert (Hc : forall ev, is_byte_xfer ev = true -> is_copy_to_user ev = false)
    by (intros [X c x]; destruct c; cbn; congruence).
  unfold besdbg_ioctl.
  walk reg_read_byte_xfers reg_write_byte_xfers.
  all: rewrite ?count_cons, ?count_app, ?count_cons.
  all: repeat match goal with
         | H : forallb is_byte_xfer ?t = true |- _ =>
             pose proof (existsb_byte_xfers _ _ Hd H);
             pose proof (proj2 (count_byte_xfers _ H));
             assert (count is_copy_to_user t = 0%nat)
               by (unfold count;
                   pose proof (existsb_byte_xfers _ _ Hc H) as Hn;
                   clear - Hn; induction t as [| ev t IH];
                   [ reflexivity | ];
                   cbn [existsb filter] in *;
                   apply orb_false_elim in Hn as [Hev Ht];
                   rewrite Hev; auto);
             clear H
         end.
  all: cbn [existsb delivered app].
  all: rewrite ?existsb_app.
  all: repeat match goal with
         | H : existsb delivered _ = false |- _ => rewrite H
         | H : count is_copy_to_user _ = 0%nat |- _ => rewrite H
         | H : (?x =? 0) = _ |- context [?x =? 0] => rewrite H
         end.
  all: cbn [existsb delivered orb is_copy_to_user].
  all: unfold count; cbn [filter length Nat.add]; split;
    try lia; try discriminate; reflexivity.
Qed.

Lemma request_copy_fault (self : besdbg_priv) (cmd arg : Z) :
  all_runs (besdbg_ioctl self cmd arg)
    (fun ret t =>
       existsb is_copy_to_user t = false \/
       existsb delivered t = true \/
       ret = - EFAULT).
Proof.
  assert (Hd : forall ev, is_byte_xfer ev = true -> delivered ev = false)
    by (intros [X c x]; destruct c; cbn; congruence).
  assert (Hc : forall ev, is_byte_xfer ev = true -> is_copy_to_user ev = false)
    by (intros [X c x]; destruct c; cbn; congruence).
  unfold besdbg_ioctl.
  walk reg_read_byte_xfers reg_write_byte_xfers.
  all: repeat match goal with
         | H : forallb is_byte_xfer ?t = true |- _ =>
             pose proof (existsb_byte_xfers _ _ Hd H);
             pose proof (existsb_byte_xfers _ _ Hc H);
             clear H
         end.
  all: cbn [existsb delivered is_copy_to_user app].
  all: rewrite ?existsb_app.
  all: repeat match goal with
         | H : existsb _ _ = false |- _ => rewrite H
         | H : (?x =? 0) = _ |- context [?x =? 0] => rewrite H
         end.
  all: cbn [existsb delivered orb is_copy_to_user].
  all: repeat match goal with
         | H : (?x =? 0) = _ |- context [?x =? 0] => rewrite H
         end.
  all: first [ left; reflexivity
             | right; left; reflexivity
             | right; right; reflexivity ].
Qed.

(** X8. Whatever the request, at most one copy to the client is
    attempted.  When it went through in full the call returns 0; when
    it left bytes uncopied the call returns [-EFAULT], whatever part
    was copied by then.  A call that fails in any other way attempted
    no copy to the client. *)
Theorem copy_to_client_outcome (e : env) (h : list event)
  (self : besdbg_priv) (cmd arg : Z) :
  let r := run e h (besdbg_ioctl self cmd arg) in
  (count is_copy_to_user (snd r) <= 1)%nat /\
  (existsb delivered (snd r) = false \/ fst r = 0) /\
  (existsb is_copy_to_user (snd r) = false \/
   existsb delivered (snd r) = true \/
   fst r = - EFAULT).
Proof.
  destruct (all_runs_run _ _ (request_delivery self cmd arg) e h)
    as [Hd Hc].
  pose proof (all_runs_run _ _ (request_copy_fault self cmd arg) e h) as Hf.
  cbv zeta. split; [ exact Hc | split; [ | exact Hf ] ].
  destruct (existsb delivered _); auto.
Qed.

(** A register read whose copy to the client stops after two of four
    bytes: the call returns [-EFAULT] although part of the data is with
    the client. *)
Example partial_copy_returns_fault :
  let e : env :=
    fun X h c =>
      match c in call X return X with
      | copy_to_user _ _ _ => 2
      | c' => mock_env (mk_besdbg_data 0x10 4 0x5000) (demo_bus []) ([], 0)
                       (0, 0) 0x1000 _ h c'
      end in
  run e [] (besdbg_ioctl demo_self (cmd_of RegisterRead) 0x4000)
  = (- EFAULT,
     [Ev (fetch_request 0x4000) (mk_besdbg_data 0x10 4 0x5000, 0);
      Ev (kmalloc 4) 0x1000;
      Ev sdio_claim_host tt;
      Ev (sdio_readb 0x10) (xaa, 0);
      Ev (sdio_readb 0x11) (xbb, 0);
      Ev (sdio_readb 0x12) (xcc, 0);
      Ev (sdio_readb 0x13) (xdd, 0);
      Ev sdio_release_host tt;
      Ev (copy_to_user 0x5000 [xaa; xbb; xcc; xdd] 4) 2;
      Ev (kfree 0x1000) tt]).
Proof. vm_compute. reflexivity. Qed.

(** ** Bus errors *)

Lemma after_failure_codec (tc : list event) :
  forall (ret rc : Z) (rest : list event),
    ret = 0 ->
    xfer_result ret tc = Some rc ->
    after_failure (tc ++ rest)
    = if rc =? 0 then after_failure rest else Some (rc, rest).
Proof.
  induction tc as [| ev tc IH]; intros ret rc rest Hret Hx;
    cbn [xfer_result app after_failure] in *.
  - injection Hx as <-. now rewrite Hret.
  - subst ret. cbn [Z.eqb] in Hx.
    destruct (xfer_err ev) as [e |] eqn:Hev; [ | discriminate ].
    replace (bus_err ev) with (Some e)
      by (destruct ev as [X c x]; destruct c; cbn in Hev |- *; congruence).
    destruct (e =? 0) eqn:He.
    + apply Z.eqb_eq in He. now apply (IH e).
    + destruct tc as [| ev' tc]; cbn [xfer_result] in Hx.
      * injection Hx as <-. now rewrite He.
      * rewrite He in Hx. discriminate.
Qed.

Lemma after_failure_none (t rest : list event) :
  forallb is_byte_xfer t = true ->
  after_failure t = None ->
  after_failure (t ++ rest) = after_failure rest.
Proof.
  induction t as [| ev t IH]; intros Ht Hn; [ reflexivity | ].
  cbn [forallb] in Ht. apply andb_prop in Ht as [Hev Ht].
  cbn [app after_failure] in *.
  destruct (bus_err ev) as [e |]; [ | now apply IH ].
  destruct (e =? 0); [ now apply IH | discriminate ].
Qed.

Lemma xfer_codec_failure (ret : Z) (t : list event) :
  forallb is_byte_xfer t = true ->
  xfer_result 0 t = Some ret -> codec_failure ret t.
Proof.
  intros Hb Hx. split; [ exact Hb | ]. intros rest.
  rewrite (after_failure_codec _ _ _ rest eq_refl Hx).
  destruct (ret =? 0) eqn:Hr.
  - left. apply Z.eqb_eq in Hr. auto.
  - right. right. apply Z.eqb_neq in Hr. auto.
Qed.

Lemma reg_read_codec_failure (reg dst count : Z) :
  all_runs (bes2600_sdio_reg_read reg dst count)
           (fun res t => codec_failure (fst res) t).
Proof.
  unfold bes2600_sdio_reg_read. destruct (_ || _).
  - cbn [all_runs fst]. split; [ reflexivity | ]. intros rest.
    right. left. repeat split. discriminate.
  - eapply all_runs_weaken; [ | apply reg_read_loop_xfer ].
    cbn beta. intros res t Hx.
    apply xfer_codec_failure; [ | exact Hx ].
    exact (xfer_result_byte_xfers _ _ _ Hx).
Qed.

Lemma reg_write_codec_failure (reg src : Z) (bytes : list byte) (count : Z) :
  all_runs (bes2600_sdio_reg_write reg src bytes count)
           (fun res t => codec_failure res t).
Proof.
  unfold bes2600_sdio_reg_write. destruct (_ || _).
  - cbn [all_runs fst]. split; [ reflexivity | ]. intros rest.
    right. left. repeat split. discriminate.
  - eapply all_runs_weaken; [ | apply reg_write_loop_xfer ].
    cbn beta. intros res t Hx.
    apply xfer_codec_failure; [ | exact Hx ].
    exact (xfer_result_byte_xfers _ _ _ Hx).
Qed.

Ltac bus_leaf :=
  let Haf := fresh "Haf" in
  intros ? ? Haf;
  cbn [app after_failure bus_err snd fst] in Haf;
  repeat match goal with
    | H : codec_failure ?rc ?t |- _ =>
        let Hb := fresh "Hb" in
        let Hc := fresh "Hc" in
        destruct H as [Hb Hc];
        match type of Haf with
        | context [after_failure (t ++ ?rest)] =>
            destruct (Hc rest) as [[? Hc'] | [(? & ? & Hc') | [? Hc']]];
            rewrite Hc' in Haf; clear Hc Hc'
        end
    end;
  cbn [app after_failure bus_err snd fst] in Haf;
  repeat match type of Haf with
    | context [?x =? 0] =>
        match goal with H : (x =? 0) = _ |- _ => rewrite H in Haf end
    end;
  try discriminate Haf.

Lemma request_bus_error (self : besdbg_priv) (cmd arg : Z) :
  all_runs (besdbg_ioctl self cmd arg)
    (fun ret t =>
       forall (t2 : list event) (err : Z),
         after_failure t = Some (err, t2) ->
         ret = err /\ err <> 0 /\
         existsb is_transfer t2 = false /\
         existsb is_copy_to_user t = false /\
         live_buffers [] t = []).
Proof.
  unfold besdbg_ioctl.
  walk reg_read_codec_failure reg_write_codec_failure.
  all: bus_leaf.
  all: cbn [fst snd] in *.
  all: try (exfalso;
            match goal with
            | H1 : ?z <> 0, H2 : (?z =? 0) = true |- _ =>
                apply Z.eqb_eq in H2; congruence
            end).
  all: match goal with
       | H : Some _ = Some _ |- _ => injection H as <- <-
       end.
  all: split; [ reflexivity | ].
  all: split;
    [ first [ assumption
            | match goal with
              | H : (?z =? 0) = false |- ?z <> 0 => now apply Z.eqb_neq
              end ] | ].
  all: split; [ reflexivity | ].
  all: split.
  all: cbn [app existsb is_copy_to_user orb live_buffers].
  all: rewrite ?existsb_app, ?byte_xfers_no_copy_back by assumption.
  all: rewrite ?live_buffers_byte_xfers by assumption.
  all: cbn [existsb is_copy_to_user orb live_buffers].
  all: repeat match goal with
         | H : (?p =? 0) = false |- context [?p =? 0] => rewrite H
         end.
  all: cbn [filter]; rewrite ?Z.eqb_refl; reflexivity.
Qed.

(** X9. When a transfer of a data request fails, the request returns
    the error of that transfer, unchanged; no transfer follows the
    failed one, nothing is copied to the client, and the buffer has
    been freed by the time the call returns. *)
Theorem bus_error_passed_through (e : env) (h : list event)
  (self : besdbg_priv) (cmd arg : Z) (ret : Z) (t t2 : list event)
  (err : Z) :
  run e h (besdbg_ioctl self cmd arg) = (ret, t) ->
  after_failure t = Some (err, t2) ->
  ret = err /\ err <> 0 /\
  existsb is_transfer t2 = false /\
  existsb is_copy_to_user t = false /\
  live_buffers [] t = [].
Proof.
  intros Hrun.
  exact (run_result _ _ _ _ _ _ (request_bus_error self cmd arg) Hrun t2 err).
Qed.

(** A block read whose one transfer fails with [-EIO]. *)
Lemma bus_error_passed_through_witness :
  let t := [Ev (fetch_request 0x4000) (mk_besdbg_data 0x12 4 0x5000, 0);
            Ev (kmalloc 4) 0x1000;
            Ev sdio_claim_host tt;
            Ev (sdio_memcpy_fromio 0x1000 0x12 4) ([xcc; xdd; x00; x00], -5);
            Ev sdio_release_host tt;
            Ev (dev_err "read failed") tt;
            Ev (kfree 0x1000) tt] in
  -5 = -5 /\ -5 <> 0 /\
  existsb is_transfer
    [Ev sdio_release_host tt; Ev (dev_err "read failed") tt;
     Ev (kfree 0x1000) tt] = false /\
  existsb is_copy_to_user t = false /\
  live_buffers [] t = [].
Proof.
  apply (bus_error_passed_through
           (mock_env (mk_besdbg_data 0x12 4 0x5000) (demo_bus [0x12])
                     ([], 0) (0, 0) 0x1000)
           [] demo_self (cmd_of BlockRead) 0x4000).
  - vm_compute. reflexivity.
  - reflexivity.
Defined.

(** ** The buffer, and what a data request leaves alone *)

(** X10. A request returns with every buffer it allocated freed,
    unless the copy of the payload of a write faulted: then that copy
    is its last call, the result is [-EFAULT], and the one buffer it
    had allocated is still live. *)
Theorem buffer_freed_unless_payload_fault (e : env) (h : list event)
  (self : besdbg_priv) (cmd arg : Z) :
  let r := run e h (besdbg_ioctl self cmd arg) in
  live_buffers [] (snd r) = [] \/ payload_fault (fst r) (snd r).
Proof.
  exact (all_runs_run _ _ (ioctl_buffers self cmd arg) e h).
Qed.

Lemma data_request_lifecycle (self : besdbg_priv) (k : kind) (arg : Z) :
  all_runs (besdbg_ioctl self (cmd_of k) arg)
           (fun _ t => existsb is_lifecycle t = false).
Proof.
  assert (Hl : forall ev, is_byte_xfer ev = true -> is_lifecycle ev = false)
    by (intros [X c x]; destruct c; cbn; congruence).
  destruct k; pick_case;
    walk reg_read_byte_xfers reg_write_byte_xfers.
  all: cbn [app existsb is_lifecycle orb].
  all: rewrite ?existsb_app.
  all: rewrite ?(existsb_byte_xfers _ _ Hl) by assumption.
  all: reflexivity.
Qed.

(** X11. A data request never touches the lifecycle of the device: it
    does not drive the wake line, reset the card, enable or disable the
    function, or sleep. *)
Theorem data_request_no_lifecycle (e : env) (h : list event)
  (self : besdbg_priv) (k : kind) (arg : Z) :
  existsb is_lifecycle (snd (run e h (besdbg_ioctl self (cmd_of k) arg)))
  = false.
Proof.
  exact (all_runs_run _ _ (data_request_lifecycle self k arg) e h).
Qed.

(** ** Requests in flight together: progress and composition *)

Lemma length_set_nth {A : Type} (l : list A) :
  forall (i : nat) (a : A), length (set_nth i a l) = length l.
Proof.
  induction l as [| b l IH]; intros [| i] a; cbn; auto.
Qed.

Lemma pool_step_owner_valid (e : env) (i : nat) (s : pool) :
  owner_valid s -> owner_valid (pool_step e i s).
Proof.
  intros Hs. unfold pool_step.
  destruct (nth_error (threads s) i) as [[r | X c k] |] eqn:Hi;
    try exact Hs.
  assert (Hlt : (i < length (threads s))%nat)
    by (apply nth_error_Some; congruence).
  assert (Hgo : owner_valid
    {| owner := next_owner (owner s) i c;
       threads := set_nth i (k (e X (map snd (log s)) c)) (threads s);
       log := log s ++ [(i, Ev c (e X (map snd (log s)) c))] |}).
  { intros j. cbn [owner threads]. rewrite length_set_nth.
    unfold next_owner. destruct (claims c); [ congruence | ].
    destruct (releases c); [ discriminate | apply Hs ]. }
  destruct (claims c); destruct (owner s); try exact Hs; exact Hgo.
Qed.

Lemma run_pool_owner_valid (e : env) (sched : list nat) :
  forall s, owner_valid s -> owner_valid (run_pool e sched s).
Proof.
  unfold run_pool.
  induction sched as [| i sched IH]; intros s Hs; cbn [fold_left];
    [ exact Hs | ].
  apply IH. now apply pool_step_owner_valid.
Qed.

Lemma thread_log_snoc (i j : nat) (ev : event) (l : list (nat * event)) :
  thread_log j (l ++ [(i, ev)])
  = thread_log j l ++ (if Nat.eqb i j then [ev] else []).
Proof.
  unfold thread_log. rewrite filter_app, map_app. cbn [filter fst].
  now destruct (Nat.eqb i j).
Qed.

Lemma pool_step_follows (self : besdbg_priv) (reqs : list (Z * Z))
  (e : env) (i : nat) (s : pool) :
  follows_program self reqs s -> follows_program self reqs (pool_step e i s).
Proof.
  intros Hs. unfold pool_step.
  destruct (nth_error (threads s) i) as [[r | X c k] |] eqn:Hi;
    try exact Hs.
  assert (Hgo : follows_program self reqs
    {| owner := next_owner (owner s) i c;
       threads := set_nth i (k (e X (map snd (log s)) c)) (threads s);
       log := log s ++ [(i, Ev c (e X (map snd (log s)) c))] |}).
  { intros j cmd arg p Q Hreq Hp HQ. cbn [threads log] in *.
    rewrite thread_log_snoc.
    destruct (Nat.eq_dec i j) as [<- | Hij].
    - rewrite (nth_error_set_nth_same _ _ _ _ Hi) in Hp.
      injection Hp as <-. rewrite Nat.eqb_refl.
      pose proof (Hs _ _ _ _ _ Hreq Hi HQ) as H. cbn [all_runs] in H.
      eapply all_runs_weaken; [ | apply H ].
      cbn beta. intros r t. now rewrite <- app_assoc.
    - rewrite nth_error_set_nth_other in Hp by exact Hij.
      apply Nat.eqb_neq in Hij. rewrite Hij, app_nil_r.
      exact (Hs _ _ _ _ _ Hreq Hp HQ). }
  destruct (claims c); destruct (owner s); try exact Hs; exact Hgo.
Qed.

Lemma run_pool_follows (self : besdbg_priv) (reqs : list (Z * Z))
  (e : env) (sched : list nat) :
  forall s,
    follows_program self reqs s ->
    follows_program self reqs (run_pool e sched s).
Proof.
  unfold run_pool.
  induction sched as [| i sched IH]; intros s Hs; cbn [fold_left];
    [ exact Hs | ].
  apply IH. now apply pool_step_follows.
Qed.

Lemma pool_of_follows (self : besdbg_priv) (reqs : list (Z * Z)) :
  follows_program self reqs (pool_of self reqs).
Proof.
  intros i cmd arg p Q Hreq Hp HQ. cbn [pool_of threads log] in *.
  rewrite (map_nth_error _ _ _ Hreq) in Hp. injection Hp as <-.
  exact HQ.
Qed.

Lemma returned_follows (e : env) (sched : list nat)
  (self : besdbg_priv) (reqs : list (Z * Z)) (i : nat) (cmd arg : Z)
  (Q : Z -> list event -> Prop) (r : Z) :
  nth_error reqs i = Some (cmd, arg) ->
  nth_error (threads (run_pool e sched (pool_of self reqs))) i
  = Some (Ret r) ->
  all_runs (besdbg_ioctl self cmd arg) Q ->
  Q r (thread_log i (log (run_pool e sched (pool_of self reqs)))).
Proof.
  intros Hreq Hp HQ.
  pose proof (run_pool_follows self reqs e sched _
                (pool_of_follows self reqs) _ _ _ _ _ Hreq Hp HQ) as H.
  cbn [all_runs] in H. now rewrite app_nil_r in H.
Qed.

(** X12. In any interleaving of requests on the device, a request that
    has returned has, in its own calls, kept what [besdbg_ioctl] keeps
    when it runs alone, and does not hold the host any more.  Its
    calls claim and release the host in turn, use the bus only in
    between and end with the host released; it attempted at most one
    copy to the client, and returned 0 when that copy went through in
    full; and every buffer it allocated is freed, unless the copy of
    the payload of a write faulted. *)
Theorem returned_request_kept_discipline (e : env) (sched : list nat)
  (self : besdbg_priv) (reqs : list (Z * Z)) (i : nat) (cmd arg : Z)
  (r : Z) :
  nth_error reqs i = Some (cmd, arg) ->
  nth_error (threads (run_pool e sched (pool_of self reqs))) i
  = Some (Ret r) ->
  let s := run_pool e sched (pool_of self reqs) in
  let t := thread_log i (log s) in
  holds (owner s) i = false /\
  guard_after false t = Some false /\
  (count is_copy_to_user t <= 1)%nat /\
  (existsb delivered t = false \/ r = 0) /\
  (live_buffers [] t = [] \/ payload_fault r t).
Proof.
  intros Hreq Hp s t.
  assert (Hfree : holds (owner s) i = false).
  { pose proof (ok_threads _ (run_pool_ok e sched _ (pool_of_ok self reqs))
                           _ _ Hp) as Hd.
    fold s in Hd. unfold disciplined in Hd. cbn [all_runs guard_after] in Hd.
    now destruct (holds (owner s) i). }
  pose proof (returned_follows e sched self reqs i cmd arg _ r Hreq Hp
                (ioctl_guard self cmd arg)) as Hguard.
  pose proof (returned_follows e sched self reqs i cmd arg _ r Hreq Hp
                (request_delivery self cmd arg)) as [Hd Hc].
  pose proof (returned_follows e sched self reqs i cmd arg _ r Hreq Hp
                (ioctl_buffers self cmd arg)) as Hbuf.
  fold s in Hguard, Hd, Hc, Hbuf. fold t in Hguard, Hd, Hc, Hbuf.
  split; [ exact Hfree | ].
  split; [ exact Hguard | ].
  split; [ exact Hc | ].
  split; [ | exact Hbuf ].
  destruct (existsb delivered t); auto.
Qed.

(** The register read of [demo_pool], which ran while a reset was in
    flight. *)
Lemma returned_request_kept_discipline_witness :
  let t := thread_log 1 (log demo_pool) in
  holds (owner demo_pool) 1 = false /\
  guard_after false t = Some false /\
  (count is_copy_to_user t <= 1)%nat /\
  (existsb delivered t = false \/ 0 = 0) /\
  (live_buffers [] t = [] \/ payload_fault 0 t).
Proof.
  apply (returned_request_kept_discipline
           (mock_env (mk_besdbg_data 0x10 2 0x5000) (demo_bus [])
                     ([], 0) (0, 0) 0x1000)
           demo_sched demo_self
           [(BESDBG_IOCTL_RESET, 0); (BESDBG_IOCTL_REG_READ, 0x4000)]
           1%nat BESDBG_IOCTL_REG_READ 0x4000 0).
  - reflexivity.
  - vm_compute. reflexivity.
Defined.

Lemma holder_can_run {X : Type} (c : call X) (k : X -> prog Z) (x : X) :
  disciplined true (Vis c k) -> claims c = false.
Proof.
  intros H. destruct (disciplined_step _ _ _ x H) as (held' & Hstep & _).
  unfold guard_step in Hstep. cbn [is_claim] in Hstep.
  destruct (claims c); [ discriminate | reflexivity ].
Qed.

Lemma not_returned_exists (l : list (prog Z)) :
  forallb returned l = false ->
  exists i X (c : call X) k, nth_error l i = Some (Vis c k).
Proof.
  induction l as [| p l IH]; cbn [forallb]; [ discriminate | ].
  destruct p as [r | X c k]; cbn [returned andb].
  - intros H. destruct (IH H) as (i & X & c & k & Hi).
    now exists (S i), X, c, k.
  - intros _. now exists 0%nat, X, c, k.
Qed.

Lemma pool_step_moves (e : env) (i : nat) (s : pool) {X : Type}
  (c : call X) (k : X -> prog Z) :
  nth_error (threads s) i = Some (Vis c k) ->
  claims c = false \/ owner s = None ->
  length (log (pool_step e i s)) = S (length (log s)).
Proof.
  intros Hi Hfree. unfold pool_step. rewrite Hi.
  destruct (claims c), (owner s); cbn [log];
    rewrite ?length_app; cbn [length]; try lia.
  destruct Hfree; discriminate.
Qed.

(** X13. Requests in flight together cannot deadlock, and none returns
    with the host: in every state a schedule can reach, when all
    requests have returned the host is free, and otherwise there is a
    request that makes its next call as soon as it is scheduled. *)
Theorem no_deadlock (e : env) (sched : list nat) (self : besdbg_priv)
  (reqs : list (Z * Z)) :
  let s := run_pool e sched (pool_of self reqs) in
  (forallb returned (threads s) = true /\ owner s = None) \/
  (forallb returned (threads s) = false /\
   exists i, length (log (pool_step e i s)) = S (length (log s))).
Proof.
  intros s.
  assert (Hok : pool_ok s)
    by (apply run_pool_ok, pool_of_ok).
  assert (Hvalid : owner_valid s).
  { apply run_pool_owner_valid. intros i. cbn. discriminate. }
  assert (Hholder : forall i, owner s = Some i ->
            exists X (c : call X) k,
              nth_error (threads s) i = Some (Vis c k) /\ claims c = false).
  { intros i Ho.
    destruct (nth_error (threads s) i) as [p |] eqn:Hi;
      [ | apply nth_error_None in Hi; specialize (Hvalid i Ho); lia ].
    pose proof (ok_threads _ Hok _ _ Hi) as Hd.
    rewrite Ho in Hd. cbn [holds] in Hd. rewrite Nat.eqb_refl in Hd.
    destruct p as [r | X c k]; [ discriminate Hd | ].
    exists X, c, k. split; [ reflexivity | ].
    exact (holder_can_run c k (e X (map snd (log s)) c) Hd). }
  destruct (forallb returned (threads s)) eqn:Hret.
  - left. split; [ reflexivity | ].
    destruct (owner s) as [i |] eqn:Ho; [ exfalso | reflexivity ].
    destruct (Hholder i eq_refl) as (X & c & k & Hi & _).
    rewrite forallb_forall in Hret.
    specialize (Hret _ (nth_error_In _ _ Hi)). discriminate.
  - right. split; [ reflexivity | ].
    destruct (owner s) as [i |] eqn:Ho.
    + destruct (Hholder i eq_refl) as (X & c & k & Hi & Hc).
      exists i. eapply pool_step_moves; eauto.
    + destruct (not_returned_exists _ Hret) as (i & X & c & k & Hi).
      exists i. eapply pool_step_moves; eauto.
Qed.

(** * Properties of attaching and detaching *)

(** ** Running attachments *)

Lemma all_aruns_arun {R : Type} (p : aprog R) :
  forall (Q : R -> list aevent -> Prop),
    all_aruns p Q ->
    forall (e : aenv) (h : list aevent),
      Q (fst (arun e h p)) (snd (arun e h p)).
Proof.
  induction p as [r | X c k IH]; intros Q HQ e h; cbn [arun all_aruns] in *.
  - exact HQ.
  - specialize (IH _ _ (HQ (e X h c)) e (h ++ [AEv c (e X h c)])).
    now destruct (arun e (h ++ [AEv c (e X h c)]) (k (e X h c))).
Qed.


Lemma IS_ERR_PTR_ERR (ptr : Z) :
  IS_ERR ptr = true -> - MAX_ERRNO <= PTR_ERR ptr < 0.
Proof.
  unfold IS_ERR, PTR_ERR, MAX_ERRNO. intros H. apply Z.leb_le in H.
  assert (u64 ptr < 2 ^ 64) by (unfold u64; apply Z.mod_pos_bound; lia).
  destruct (u64 ptr <? 2 ^ 63) eqn:Hlt;
    [ apply Z.ltb_lt in Hlt | apply Z.ltb_ge in Hlt ]; lia.
Qed.

Ltac awalk :=
  repeat match goal with
    | |- forall _ : unit, _ => answer
    | |- forall _ : Z, _ => answer
    | |- forall _ : (_ * _)%type, _ => answer
    | |- all_aruns (AVis _ _) _ => cbn [all_aruns]; answer
    | |- all_aruns (ARet _) _ => cbn [all_aruns]
    | |- all_aruns (err_sleep _ _ _) _ => unfold err_sleep
    | |- all_aruns (err_unreg_chrev_region _ _ _ _) _ =>
        unfold err_unreg_chrev_region
    | |- all_aruns (err_cdev _ _ _ _) _ => unfold err_cdev
    | |- all_aruns (abind (if negb (?x =? 0) then _ else _) _) _ =>
        destruct (x =? 0) eqn:?; cbn [negb]
    | |- all_aruns (abind _ _) _ => progress cbn [abind atrigger]
    | |- all_aruns (if negb (?x =? 0) then _ else _) _ =>
        destruct (x =? 0) eqn:?; cbn [negb]
    | |- all_aruns (if ?b then _ else _) _ => destruct b eqn:?
    | |- all_aruns (let r := _ in _) _ => cbv zeta
    end.

(** ** A probe that fails *)






(** The same probe, in full: the region of device number 240 is still
    allocated when it returns [-EBUSY]. *)
Example probe_failure_leaves_region :
  let r := arun (mock_aenv 1 0x6000 0x7100 (0, 240) (-16) 0x6100 (0, 0)
                           0x6200 0)
                [] (besdbg_probe demo_quirks 0x6200 0x7000 1 demo_state) in
  r = ((-16, {| quirks := 257; drvdata_of := None |}),
       [AEv (dev_info "probe start") tt;
        AEv (of_device_is_compatible "bestechnic,bes2600") 1;
        AEv devm_kzalloc 0x6000;
        AEv (devm_gpiod_get "device-wakeup") 0x7100;
        AEv (kernel (gpiod_direction_output 0x7100 1)) 0;
        AEv (kernel (msleep 10)) tt;
        AEv (alloc_chrdev_region 0 1 "besdbg") (0, 240);
        AEv cdev_init tt;
        AEv (cdev_add 240 1) (-16);
        AEv (kernel (dev_err "can't add cdev")) tt;
        AEv (kernel (unregister_chrdev 240 "besdbg")) tt;
        AEv (kernel (gpiod_direction_output 0x7100 0)) 0]) /\
  outstanding [] (snd r) = [Region 240].
Proof. vm_compute. split; reflexivity. Qed.

(** ** A probe that succeeds *)




(** ** Attach, then detach *)

Lemma outstanding_app (t1 t2 : list aevent) (held : list resource) :
  outstanding held (t1 ++ t2) = outstanding (outstanding held t1) t2.
Proof. unfold outstanding. apply fold_left_app. Qed.




(** The same attach and detach, in full: every GPIO write succeeds, and
    the region of device number 240 is what stays allocated. *)
Example attach_detach_leaves_region :
  let e := mock_aenv 1 0x6000 0x7100 (0, 240) 0 0x6100 (0, 0) 0x6200 0 in
  let r1 := arun e [] (besdbg_probe demo_quirks 0x6200 0x7000 1 demo_state) in
  let r2 := arun e (snd r1) (disconnect (snd (fst r1))) in
  fst (fst r1) = 0 /\
  snd r2
  = [AEv (kernel cdev_del) tt;
     AEv (kernel (unregister_chrdev 240 "besdbg")) tt;
     AEv (kernel (device_destroy 240)) tt;
     AEv (kernel sdio_claim_host) tt;
     AEv (kernel sdio_disable_func) 0;
     AEv (kernel sdio_release_host) tt;
     AEv (kernel (gpiod_direction_output 0x7100 0)) 0] /\
  outstanding [] (snd r1) = [Device 240; Cdev; Region 240; Wake 0x7100] /\
  outstanding [] (snd r1 ++ snd r2) = [Region 240].
Proof. vm_compute. repeat split; reflexivity. Qed.

(** ** The guard during attach and detach *)

Lemma probe_guard (q : quirk_bits) (cls func num : Z) (st : attach_state) :
  all_aruns (besdbg_probe q cls func num st)
    (fun _ t =>
       guard_after false (kernel_trace t) = Some false /\
       (count is_claim (kernel_trace t) <= 1)%nat /\
       count is_release (kernel_trace t) = count is_claim (kernel_trace t)).
Proof.
  unfold besdbg_probe. awalk.
  all: repeat split; cbn; auto.
Qed.

Lemma disconnect_guard (drvdata : option besdbg_priv) :
  all_runs (besdbg_disconnect drvdata)
    (fun _ t =>
       guard_after false t = Some false /\
       (count is_claim t <= 1)%nat /\
       count is_release t = count is_claim t).
Proof.
  destruct drvdata as [self |];
    cbn [besdbg_disconnect bind trigger all_runs].
  - intros [] [] [] [] dis [] gp. repeat split; cbn; auto.
  - repeat split; cbn; auto.
Qed.

(** X17. The probe and the detach keep the guard discipline of the
    dispatcher: each claims the host at most once and releases it as
    often as it claimed it, enables or disables the function only
    while it holds the host, and has released it when it returns. *)
Theorem attach_detach_guard (e : aenv) (h : list aevent) (e' : env)
  (h' : list event) (q : quirk_bits) (cls func num : Z) (st : attach_state)
  (drvdata : option besdbg_priv) :
  let tp := kernel_trace (snd (arun e h (besdbg_probe q cls func num st))) in
  let td := snd (run e' h' (besdbg_disconnect drvdata)) in
  (guard_after false tp = Some false /\
   (count is_claim tp <= 1)%nat /\
   count is_release tp = count is_claim tp) /\
  (guard_after false td = Some false /\
   (count is_claim td <= 1)%nat /\
   count is_release td = count is_claim td).
Proof.
  cbv zeta. split.
  - exact (all_aruns_arun _ _ (probe_guard q cls func num st) e h).
  - exact (all_runs_run _ _ (disconnect_guard drvdata) e' h').
Qed.

(** ** Loading and unloading the module *)

Lemma driver_init_runs :
  all_aruns besdbg_driver_init
    (fun res t =>
       (fst res <> 0 /\ outstanding [] t = []) \/
       (fst res = 0 /\ IS_ERR (snd res) = false /\
        outstanding [] t = [Driver; Class (snd res)])).
Proof.
  unfold besdbg_driver_init. awalk.
  all: cbn [fst snd]; unfold outstanding; cbn [fold_left account].
  all: repeat match goal with
         | H : ?b = _ |- context [?b] => rewrite H
         end.
  all: cbn [give_back resource_eqb]; rewrite ?Z.eqb_refl.
  - left. split; [ | reflexivity ].
    match goal with
    | H : IS_ERR _ = true |- _ => apply IS_ERR_PTR_ERR in H; lia
    end.
  - right. auto.
  - left. split; [ | reflexivity ].
    match goal with
    | H : (_ =? 0) = false |- _ => now apply Z.eqb_neq in H
    end.
Qed.

(** X18. Loading the module either fails and leaves nothing behind
    (when the driver cannot be registered, the class just created is
    destroyed again), or succeeds holding the class and the
    registration of the driver; unloading then gives both back, the
    registration first. *)
Theorem module_load_unload (e e2 : aenv) (h h2 : list aevent) :
  let r := arun e h besdbg_driver_init in
  let cls := snd (fst r) in
  (fst (fst r) <> 0 /\ outstanding [] (snd r) = []) \/
  (fst (fst r) = 0 /\
   outstanding [] (snd r) = [Driver; Class cls] /\
   snd (arun e2 h2 (besdbg_driver_exit cls))
   = [AEv sdio_unregister_driver tt; AEv (class_destroy cls) tt] /\
   outstanding [] (snd r ++ snd (arun e2 h2 (besdbg_driver_exit cls))) = []).
Proof.
  intros r cls.
  destruct (all_aruns_arun _ _ driver_init_runs e h)
    as [[Hret Hout] | (Hret & Hcls & Hout)];
    fold r in Hret, Hout; [ left; auto | right ].
  fold r in Hcls. fold cls in Hcls, Hout.
  assert (Hexit :
    snd (arun e2 h2 (besdbg_driver_exit cls))
    = [AEv sdio_unregister_driver tt; AEv (class_destroy cls) tt]).
  { unfold besdbg_driver_exit. cbn [abind atrigger arun snd].
    repeat match goal with |- context [e2 unit ?hh ?c] =>
      destruct (e2 unit hh c) end.
    reflexivity. }
  repeat split; auto.
  rewrite Hexit, outstanding_app, Hout. unfold outstanding.
  cbn [fold_left account give_back resource_eqb].
  now rewrite Z.eqb_refl.
Qed.
